(** * AVP workshop demos: vault wrappers and the NexusClaw simulator

    A shallow embedding of the three wrapper modules of the workshop,

      - [demos/04-hardware-security/avp_hardware.py]
        ([NexusClawSimulator], [NexusClaw]),
      - [demos/03-crewai-avp/avp_crewai.py] ([AVPCredentialManager]),
      - [demos/02-langchain-avp/avp_langchain.py] ([AVPCredentialProvider]),

    followed by the properties of the vault design that these modules
    decide.

    Conventions of the embedding.

      - A Python object is a record; a method is a function from the
        object's state (and its arguments) to an outcome paired with the
        state the call leaves behind.  A raised exception is an outcome:
        whatever the method wrote before raising stays written.
      - An exception is modelled by its class.  Message texts, console
        output ([print]) and the simulated touch delay ([time.sleep]) are
        not part of any state and are left out.
      - A [dict] is a [gmap]; [len] is [size], [del] is [delete].
      - [bytes] is [list byte], and a [str] is the [string] that holds
        its UTF-8 encoding: [len] counts code points ([Py.len]),
        [str.encode()] hands out the bytes, and [bytes.decode()] gives
        the text back when the bytes are well-formed UTF-8 and raises
        [UnicodeDecodeError] otherwise ([Py.decode_utf8]).  Where the
        bytes decoded are the wrapper's own [encode] output the
        conversion back is written [Py.decode].
      - Wall-clock time is an argument [now] (seconds) of every call that
        reads the clock. *)

From Stdlib Require Strings.String Strings.Byte.
From stdpp Require Import gmap strings list fin_maps.

Open Scope string_scope.
Open Scope list_scope.
Open Scope nat_scope.
Open Scope stdpp_scope.

(** ** Python values and outcomes *)

Module Py.

(** Modelled from the spec: the failure kinds of the vault protocol
    (section 7), raised by the [avp] package, which is not among the
    sources. *)
Inductive error_kind : Set :=
| ConnectionError
| AuthenticationError
| SessionExpiredError
| NotFoundError
| CapacityError
| IntegrityError
| DeviceWipedError
| UnsupportedFormatError.

(** Exception classes raised by, or passing through, the wrappers. *)
Inductive exn : Set :=
| ValueError
| KeyError
| PermissionError
| UnicodeDecodeError
| AVPError (k : error_kind).

Inductive result (A : Type) : Type :=
| Return (a : A)
| Raise (e : exn).
Arguments Return {A} a.
Arguments Raise {A} e.

Definition is_return {A} (r : result A) : bool :=
  match r with Return _ => true | Raise _ => false end.

Definition bytes : Type := list Byte.byte.

(** [value.encode()] and [value.decode()]. *)
Definition encode (s : string) : bytes := String.list_byte_of_string s.
Definition decode (b : bytes) : string := String.string_of_list_byte b.

(** [len(s)] of a [str]: the number of code points, that is of the
    bytes of its UTF-8 encoding that are not continuation bytes
    ([10xxxxxx]). *)
Definition is_continuation (a : Ascii.ascii) : bool :=
  match a with
  | Ascii.Ascii _ _ _ _ _ _ false true => true
  | _ => false
  end.

Fixpoint len (s : string) : nat :=
  match s with
  | EmptyString => 0
  | String a rest => (if is_continuation a then 0 else 1) + len rest
  end.

Definition between (lo hi : N) (b : Byte.byte) : bool :=
  ((lo <=? Byte.to_N b) && (Byte.to_N b <=? hi))%N.

(** The byte sequences the strict UTF-8 decoder of [bytes.decode()]
    accepts: one to four bytes per code point, no overlong form, no
    surrogate, nothing above U+10FFFF. *)
Fixpoint valid_utf8 (b : bytes) : bool :=
  match b with
  | [] => true
  | b0 :: t0 =>
      if between 0x00 0x7F b0 then valid_utf8 t0 else
      match t0 with
      | [] => false
      | b1 :: t1 =>
          if between 0xC2 0xDF b0 then between 0x80 0xBF b1 && valid_utf8 t1 else
          match t1 with
          | [] => false
          | b2 :: t2 =>
              if between 0xE0 0xE0 b0 then
                between 0xA0 0xBF b1 && between 0x80 0xBF b2 && valid_utf8 t2
              else if between 0xE1 0xEC b0 || between 0xEE 0xEF b0 then
                between 0x80 0xBF b1 && between 0x80 0xBF b2 && valid_utf8 t2
              else if between 0xED 0xED b0 then
                between 0x80 0x9F b1 && between 0x80 0xBF b2 && valid_utf8 t2
              else
              match t2 with
              | [] => false
              | b3 :: t3 =>
                  if between 0xF0 0xF0 b0 then
                    between 0x90 0xBF b1 && between 0x80 0xBF b2
                    && between 0x80 0xBF b3 && valid_utf8 t3
                  else if between 0xF1 0xF3 b0 then
                    between 0x80 0xBF b1 && between 0x80 0xBF b2
                    && between 0x80 0xBF b3 && valid_utf8 t3
                  else if between 0xF4 0xF4 b0 then
                    between 0x80 0x8F b1 && between 0x80 0xBF b2
                    && between 0x80 0xBF b3 && valid_utf8 t3
                  else false
              end
          end
      end
  end.

(** [b.decode()] on bytes of any origin. *)
Definition decode_utf8 (b : bytes) : result string :=
  if valid_utf8 b then Return (decode b) else Raise UnicodeDecodeError.

(** A method: state in, outcome and state out. *)
Definition method (S A : Type) : Type := S → result A * S.

Definition ret {S A} (a : A) : method S A := λ s, (Return a, s).
Definition raise {S A} (e : exn) : method S A := λ s, (Raise e, s).
Definition bind {S A B} (k : A → method S B) (m : method S A) : method S B :=
  λ s, match m s with
       | (Return a, s') => k a s'
       | (Raise e, s') => (Raise e, s')
       end.
Definition modify {S} (f : S → S) : method S unit := λ s, (Return tt, f s).
Definition read {S A} (f : S → A) : method S A := λ s, (Return (f s), s).
(** An outcome computed without the object. *)
Definition lift {S A} (r : result A) : method S A := λ s, (r, s).
(** A block that reads the object it runs on. *)
Definition self {S A} (f : S → method S A) : method S A := λ s, f s s.

(** [try: body  except Exception: raise e] *)
Definition try_except_raise {S A} (body : method S A) (e : exn) : method S A :=
  λ s, match body s with
       | (Return a, s') => (Return a, s')
       | (Raise _, s') => (Raise e, s')
       end.

End Py.

Export Py.

(** Sequencing of statements: [x ← m; k] runs [m], stops at a raise, and
    otherwise goes on with [k]; [m ;; k] drops the value of [m]. *)
#[export] Instance method_ret {S} : MRet (Py.method S) := @Py.ret S.
#[export] Instance method_bind {S} : MBind (Py.method S) := @Py.bind S.

(** ** [avp_hardware.py] *)

Module Hardware.

Inductive SecurityLevel : Set :=
| PLAINTEXT
| ENCRYPTED_FILE
| OS_KEYCHAIN
| HARDWARE.

Definition SecurityLevel_value (l : SecurityLevel) : nat :=
  match l with
  | PLAINTEXT => 1
  | ENCRYPTED_FILE => 2
  | OS_KEYCHAIN => 3
  | HARDWARE => 4
  end.

Record HardwareInfo : Type := mkHardwareInfo {
  device_id : string;
  firmware_version : string;
  secure_element : string;
  slots_used : nat;
  slots_total : nat;
  tamper_detected : bool
}.

(** *** class NexusClawSimulator *)
Module NexusClawSimulator.

Record t : Type := mk {
  _connected : bool;
  _pin_set : bool;
  _pin : option string;
  _slots : gmap string bytes;
  _max_slots : nat;
  _failed_attempts : nat;
  _max_attempts : nat
}.

Definition set_connected (b : bool) (d : t) : t :=
  mk b (_pin_set d) (_pin d) (_slots d) (_max_slots d)
     (_failed_attempts d) (_max_attempts d).
Definition set_pin (p : string) (d : t) : t :=
  mk (_connected d) true (Some p) (_slots d) (_max_slots d)
     (_failed_attempts d) (_max_attempts d).
Definition set_slots (m : gmap string bytes) (d : t) : t :=
  mk (_connected d) (_pin_set d) (_pin d) m (_max_slots d)
     (_failed_attempts d) (_max_attempts d).
Definition set_failed_attempts (n : nat) (d : t) : t :=
  mk (_connected d) (_pin_set d) (_pin d) (_slots d) (_max_slots d)
     n (_max_attempts d).

(** [__init__] *)
Definition init : t :=
  {| _connected := false;
     _pin_set := false;
     _pin := None;
     _slots := ∅;
     _max_slots := 32;
     _failed_attempts := 0;
     _max_attempts := 3 |}.

Definition connect (d : t) : result bool * t :=
  (Return true, set_connected true d).

Definition get_info (d : t) : HardwareInfo :=
  {| device_id := "NXCLAW-SIM-0001";
     firmware_version := "1.0.0-sim";
     secure_element := "TROPIC01-SIM";
     slots_used := size (_slots d);
     slots_total := _max_slots d;
     tamper_detected := false |}.

(** [if len(pin) < 4: raise ValueError]; then [_pin = pin],
    [_pin_set = True]. *)
Definition setup_pin (pin : string) (d : t) : result bool * t :=
  if (Py.len pin <? 4)%nat then (Raise ValueError, d)
  else (Return true, set_pin pin d).

(** [pin == self._pin] resets the counter; any other [pin] counts one
    failure, and at [_max_attempts] the slots are replaced by [{}]. *)
Definition verify_pin (pin : string) (d : t) : result bool * t :=
  if bool_decide (Some pin = _pin d) then
    (Return true, set_failed_attempts 0 d)
  else
    let d1 := set_failed_attempts (_failed_attempts d + 1) d in
    if (_max_attempts d1 <=? _failed_attempts d1)%nat then
      (Return false, set_slots ∅ d1)
    else
      (Return false, d1).

(** [if len(self._slots) >= self._max_slots: raise ValueError]; then
    the touch confirmation and [self._slots[slot_name] = value]. *)
Definition store (slot_name : string) (value : bytes) (d : t)
  : result bool * t :=
  if (_max_slots d <=? size (_slots d))%nat then (Raise ValueError, d)
  else (Return true, set_slots (<[slot_name := value]> (_slots d)) d).

(** [if slot_name not in self._slots: raise KeyError]; then the touch
    confirmation and [return self._slots[slot_name]]. *)
Definition retrieve (slot_name : string) (d : t) : result bytes * t :=
  match _slots d !! slot_name with
  | None => (Raise KeyError, d)
  | Some v => (Return v, d)
  end.

Definition delete (slot_name : string) (d : t) : result bool * t :=
  match _slots d !! slot_name with
  | Some _ => (Return true, set_slots (base.delete slot_name (_slots d)) d)
  | None => (Return false, d)
  end.

(** [list(self._slots.keys())]: the names in use.  The [dict] hands them
    out in insertion order; the map keeps no such order, so the list
    here stands for the names it holds and nothing below speaks of
    their order. *)
Definition list_slots (d : t) : result (list string) * t :=
  (Return (map_to_list (_slots d)).*1, d).

Definition disconnect (d : t) : result unit * t :=
  (Return tt, set_connected false d).

End NexusClawSimulator.

(** *** class NexusClaw

    [__init__] raises [NotImplementedError] unless the simulator is
    selected, so every constructed object holds a simulator. *)
Module NexusClaw.

Record t : Type := mk {
  _simulation : bool;
  _device : NexusClawSimulator.t;
  _authenticated : bool
}.

Definition init : t :=
  {| _simulation := true;
     _device := NexusClawSimulator.init;
     _authenticated := false |}.

(** Run a simulator method on [self._device]. *)
Definition on_device {A} (f : NexusClawSimulator.t → result A * NexusClawSimulator.t)
  : Py.method t A :=
  λ nc, let '(r, d') := f (_device nc) in
        (r, mk (_simulation nc) d' (_authenticated nc)).

Definition set_authenticated (b : bool) : Py.method t unit :=
  Py.modify (λ nc, mk (_simulation nc) (_device nc) b).

Definition is_simulation (nc : t) : bool := _simulation nc.

Definition connect : Py.method t bool :=
  on_device NexusClawSimulator.connect.

Definition get_info (nc : t) : HardwareInfo :=
  NexusClawSimulator.get_info (_device nc).

Definition setup (pin : string) : Py.method t bool :=
  on_device (NexusClawSimulator.setup_pin pin).

Definition authenticate (pin : string) : Py.method t bool :=
  ok ← on_device (NexusClawSimulator.verify_pin pin);
  if ok : bool then set_authenticated true;; mret true
  else mret false.

(** [if not self._authenticated: raise PermissionError(...)] *)
Definition require_authenticated : Py.method t unit :=
  Py.self (λ nc,
    if _authenticated nc then mret tt else Py.raise PermissionError).

Definition store (name value : string) : Py.method t bool :=
  require_authenticated;;
  on_device (NexusClawSimulator.store name (Py.encode value)).

(** The slots of the key are written by [store] above and by nothing
    else, so the bytes decoded here are the encoding of a [str]. *)
Definition retrieve (name : string) : Py.method t string :=
  require_authenticated;;
  v ← on_device (NexusClawSimulator.retrieve name);
  mret (Py.decode v).

Definition delete (name : string) : Py.method t bool :=
  require_authenticated;;
  on_device (NexusClawSimulator.delete name).

Definition list : Py.method t (list string) :=
  require_authenticated;;
  on_device NexusClawSimulator.list_slots.

Definition disconnect : Py.method t unit :=
  on_device NexusClawSimulator.disconnect;;
  set_authenticated false.

End NexusClaw.

End Hardware.

(** ** The [avp] package: [AVPClient] over a [FileBackend] *)

Module AVP.

(** Modelled from the spec: the [avp] package ([AVPClient],
    [FileBackend]) is imported by the wrappers and is not among the
    sources.  A secret is the record of section 3. *)
Record Secret : Type := mkSecret {
  name : string;
  value : bytes;
  version : nat;
  labels : gmap string string;
  created_at : nat;
  updated_at : nat
}.

(** Modelled from the spec: the [Session] of section 3, bound to exactly
    one workspace and valid while [now < expires_at]. *)
Record Session : Type := mkSession {
  session_id : nat;
  workspace : string;
  issued_at : nat;
  ttl : nat;
  expires_at : nat
}.

(** Modelled from the spec: the vault engine of section 4.3 over a
    backend keyed by (workspace, name); it owns the live sessions,
    indexed by an opaque identifier.  The backend has been opened with
    the master credential by the constructor. *)
Record AVPClient : Type := mkClient {
  secrets : gmap (string * string) Secret;
  sessions : gmap nat Session;
  next_session : nat;
  session_ttl : nat
}.

Definition set_secrets (m : gmap (string * string) Secret) (c : AVPClient)
  : AVPClient :=
  mkClient m (sessions c) (next_session c) (session_ttl c).

(** Modelled from the spec: a client over an existing vault, with the
    default [ttl] of 3600 seconds and no session yet. *)
Definition open (vault : gmap (string * string) Secret) : AVPClient :=
  {| secrets := vault; sessions := ∅; next_session := 0;
     session_ttl := 3600 |}.

(** Modelled from the spec: [authenticate(workspace)] issues an
    independent session, bound to that workspace, with the configured
    [ttl]. *)
Definition authenticate (ws : string) (now : nat)
  : Py.method AVPClient Session :=
  λ c,
    let s := {| session_id := next_session c;
                workspace := ws;
                issued_at := now;
                ttl := session_ttl c;
                expires_at := now + session_ttl c |} in
    (Return s,
     mkClient (secrets c) (<[next_session c := s]> (sessions c))
              (S (next_session c)) (session_ttl c)).

(** Modelled from the spec: every operation checks that its session is
    valid ([now < expires_at]) and fails with [SessionExpiredError]
    otherwise; an identifier with no session behind it is treated the
    same way.  The check yields the workspace the session is bound to. *)
Definition check_session (sid : nat) (now : nat)
  : Py.method AVPClient string :=
  λ c,
    match sessions c !! sid with
    | Some s =>
        if (now <? expires_at s)%nat then (Return (workspace s), c)
        else (Raise (AVPError SessionExpiredError), c)
    | None => (Raise (AVPError SessionExpiredError), c)
    end.

(** Modelled from the spec: [RETRIEVE] returns the secret of that name
    in the session's workspace and fails with [NotFoundError] if it is
    absent there. *)
Definition retrieve (sid : nat) (nm : string) (now : nat)
  : Py.method AVPClient Secret :=
  ws ← check_session sid now;
  Py.self (λ c,
    match secrets c !! (ws, nm) with
    | Some s => mret s
    | None => Py.raise (AVPError NotFoundError)
    end).

(** Modelled from the spec: [STORE] is a destructive overwrite, at
    version 1. *)
Definition store (sid : nat) (nm : string) (v : bytes)
    (lbl : option (gmap string string)) (now : nat)
  : Py.method AVPClient Secret :=
  ws ← check_session sid now;
  let s := {| name := nm; value := v; version := 1;
              labels := default ∅ lbl;
              created_at := now; updated_at := now |} in
  Py.modify (λ c, set_secrets (<[(ws, nm) := s]> (secrets c)) c);;
  mret s.

(** Modelled from the spec: [ROTATE] increments the version and
    overwrites the value of an existing secret. *)
Definition rotate (sid : nat) (nm : string) (v : bytes) (now : nat)
  : Py.method AVPClient Secret :=
  ws ← check_session sid now;
  Py.self (λ c,
    match secrets c !! (ws, nm) with
    | Some old =>
        let s := {| name := nm; value := v; version := S (version old);
                    labels := labels old;
                    created_at := created_at old; updated_at := now |} in
        Py.modify (λ c, set_secrets (<[(ws, nm) := s]> (secrets c)) c);;
        mret s
    | None => Py.raise (AVPError NotFoundError)
    end).

(** Modelled from the spec: [DELETE] is idempotent and returns whether a
    secret was removed. *)
Definition delete (sid : nat) (nm : string) (now : nat)
  : Py.method AVPClient bool :=
  ws ← check_session sid now;
  Py.self (λ c,
    match secrets c !! (ws, nm) with
    | Some _ =>
        Py.modify (λ c, set_secrets (base.delete (ws, nm) (secrets c)) c);;
        mret true
    | None => mret false
    end).

(** Modelled from the spec: [LIST] returns the secrets of the session's
    workspace, in the backend's enumeration order (here the map's). *)
Definition list_secrets (sid : nat) (now : nat)
  : Py.method AVPClient (list Secret) :=
  ws ← check_session sid now;
  Py.read (λ c, (map_to_list (filter (λ kv, kv.1.1 = ws) (secrets c))).*2).

End AVP.

(** ** [avp_crewai.py] *)

Module CrewAI.

(** The dictionaries appended by [_log_access]; [timestamp] is the clock
    reading and [credential] defaults to [None]. *)
Record AuditEntry : Type := mkAuditEntry {
  timestamp : nat;
  workspace : string;
  action : string;
  credential : option string
}.

(** *** class AVPCredentialManager

    [vault_path] and [_password] only feed the constructor of the
    backend; the state below is what the methods read and write. *)
Module AVPCredentialManager.

Record t : Type := mk {
  _client : AVP.AVPClient;
  _sessions : gmap string nat;
  _audit_log : list AuditEntry
}.

(** [__init__] with [_connect]: an empty session table and an empty
    log over the freshly built client. *)
Definition init (client : AVP.AVPClient) : t :=
  {| _client := client; _sessions := ∅; _audit_log := [] |}.

(** Run a client call on [self._client]. *)
Definition on_client {A} (f : Py.method AVP.AVPClient A) : Py.method t A :=
  λ m, let '(r, c') := f (_client m) in
       (r, mk c' (_sessions m) (_audit_log m)).

Definition _log_access (now : nat) (ws act : string)
    (cred : option string) : Py.method t unit :=
  Py.modify (λ m,
    mk (_client m) (_sessions m)
       (_audit_log m ++ [mkAuditEntry now ws act cred])).

Definition _get_session (now : nat) (ws : string) : Py.method t nat :=
  Py.self (λ m,
    match _sessions m !! ws with
    | None =>
        session ← on_client (AVP.authenticate ws now);
        Py.modify (λ m, mk (_client m)
                           (<[ws := AVP.session_id session]> (_sessions m))
                           (_audit_log m));;
        _log_access now ws "session_created" None;;
        mret (AVP.session_id session)
    | Some sid => mret sid
    end).

Definition get (now : nat) (ws nm : string) : Py.method t string :=
  session_id ← _get_session now ws;
  result ← on_client (AVP.retrieve session_id nm now);
  _log_access now ws "retrieve" (Some nm);;
  Py.lift (Py.decode_utf8 (AVP.value result)).

Definition set (now : nat) (ws nm value : string)
    (lbl : option (gmap string string)) : Py.method t unit :=
  session_id ← _get_session now ws;
  on_client (AVP.store session_id nm (Py.encode value) lbl now);;
  _log_access now ws "store" (Some nm).

Definition rotate (now : nat) (ws nm new_value : string)
  : Py.method t unit :=
  session_id ← _get_session now ws;
  on_client (AVP.rotate session_id nm (Py.encode new_value) now);;
  _log_access now ws "rotate" (Some nm).

Definition list_credentials (now : nat) (ws : string)
  : Py.method t (list string) :=
  session_id ← _get_session now ws;
  result ← on_client (AVP.list_secrets session_id now);
  mret (AVP.name <$> result).

(** [self._audit_log.copy()] *)
Definition get_audit_log (m : t) : list AuditEntry := _audit_log m.

End AVPCredentialManager.

End CrewAI.

(** ** [avp_langchain.py] *)

Module LangChain.

(** *** class AVPCredentialProvider *)
Module AVPCredentialProvider.

Record t : Type := mk {
  workspace : string;
  _client : AVP.AVPClient;
  _session_id : nat
}.

Definition on_client {A} (f : Py.method AVP.AVPClient A) : Py.method t A :=
  λ p, let '(r, c') := f (_client p) in
       (r, mk (workspace p) c' (_session_id p)).

(** [__init__] with [_connect]: the one session of the provider is
    opened at construction. *)
Definition init (client : AVP.AVPClient) (ws : string) (now : nat)
  : result t :=
  match AVP.authenticate ws now client with
  | (Return session, c') => Return (mk ws c' (AVP.session_id session))
  | (Raise e, _) => Raise e
  end.

(** The whole body is inside [try]; [except Exception as e] turns
    every failure into [KeyError]. *)
Definition get (now : nat) (nm : string) : Py.method t string :=
  Py.try_except_raise
    (Py.self (λ p,
       result ← on_client (AVP.retrieve (_session_id p) nm now);
       Py.lift (Py.decode_utf8 (AVP.value result))))
    KeyError.

Definition set (now : nat) (nm value : string) : Py.method t unit :=
  Py.self (λ p,
    on_client (AVP.store (_session_id p) nm (Py.encode value) None now);;
    mret tt).

Definition delete (now : nat) (nm : string) : Py.method t bool :=
  Py.self (λ p, on_client (AVP.delete (_session_id p) nm now)).

Definition list (now : nat) : Py.method t (list string) :=
  Py.self (λ p,
    result ← on_client (AVP.list_secrets (_session_id p) now);
    mret (AVP.name <$> result)).

Definition rotate (now : nat) (nm new_value : string) : Py.method t unit :=
  Py.self (λ p,
    on_client (AVP.rotate (_session_id p) nm (Py.encode new_value) now);;
    mret tt).

End AVPCredentialProvider.

End LangChain.

(** ** Sequences of calls *)

(** A session with the hardware key, as the demo scripts drive it: a
    sequence of method calls on one [NexusClaw] object. *)
Module KeySession.
Import Hardware.

Inductive call : Type :=
| Connect
| GetInfo
| Setup (pin : string)
| Authenticate (pin : string)
| Store (name value : string)
| Retrieve (name : string)
| Delete (name : string)
| List
| Disconnect.

(** The state a call leaves behind, whether it returns or raises. *)
Definition exec (c : call) (nc : NexusClaw.t) : NexusClaw.t :=
  match c with
  | Connect => (NexusClaw.connect nc).2
  | GetInfo => nc
  | Setup pin => (NexusClaw.setup pin nc).2
  | Authenticate pin => (NexusClaw.authenticate pin nc).2
  | Store name value => (NexusClaw.store name value nc).2
  | Retrieve name => (NexusClaw.retrieve name nc).2
  | Delete name => (NexusClaw.delete name nc).2
  | List => (NexusClaw.list nc).2
  | Disconnect => (NexusClaw.disconnect nc).2
  end.

Definition run (calls : list call) (nc : NexusClaw.t) : NexusClaw.t :=
  foldl (λ nc c, exec c nc) nc calls.

(** [attempts pins]: one [authenticate] call per PIN, in order. *)
Definition attempts (pins : list string) : list call :=
  Authenticate <$> pins.

(** The object is unlocked by a sequence of calls when one of them is
    an [authenticate] that returned [True] and no [disconnect] follows
    it. *)
Definition unlocked_by (calls : list call) (nc : NexusClaw.t) : Prop :=
  ∃ before pin after,
    calls = before ++ Authenticate pin :: after ∧
    (NexusClaw.authenticate pin (run before nc)).1 = Return true ∧
    Disconnect ∉ after.

(** Every [k] consecutive attempts of [pins] include one accepted by
    [ok]: checked for the window that starts at each position. *)
Fixpoint every_window (k : nat) (ok : string → bool) (pins : list string)
  : bool :=
  match pins with
  | [] => true
  | _ :: rest =>
      ((length pins <? k)%nat || existsb ok (take k pins))
      && every_window k ok rest
  end.

Definition is_pin (d : NexusClawSimulator.t) (pin : string) : bool :=
  bool_decide (Some pin = NexusClawSimulator._pin d).

End KeySession.

(** A run of the credential manager: a sequence of timed calls on one
    [AVPCredentialManager] object. *)
Module ManagerRun.
Import CrewAI.

Inductive call : Type :=
| Get (ws nm : string)
| Set_ (ws nm value : string) (lbl : option (gmap string string))
| Rotate (ws nm new_value : string)
| ListCredentials (ws : string)
(** the clean-up of the demo scripts:
    [manager._client.delete(manager._get_session(ws), nm)] *)
| Cleanup (ws nm : string).

(** Whether the call returned normally, and the state it leaves. *)
Definition exec (now : nat) (c : call) (m : AVPCredentialManager.t)
  : bool * AVPCredentialManager.t :=
  match c with
  | Get ws nm =>
      let '(r, m') := AVPCredentialManager.get now ws nm m in
      (Py.is_return r, m')
  | Set_ ws nm value lbl =>
      let '(r, m') := AVPCredentialManager.set now ws nm value lbl m in
      (Py.is_return r, m')
  | Rotate ws nm new_value =>
      let '(r, m') := AVPCredentialManager.rotate now ws nm new_value m in
      (Py.is_return r, m')
  | ListCredentials ws =>
      let '(r, m') := AVPCredentialManager.list_credentials now ws m in
      (Py.is_return r, m')
  | Cleanup ws nm =>
      let '(r, m') :=
        (session ← AVPCredentialManager._get_session now ws;
         AVPCredentialManager.on_client (AVP.delete session nm now)) m in
      (Py.is_return r, m')
  end.

(** The outcomes of the calls, in order, and the final state. *)
Fixpoint run (calls : list (nat * call)) (m : AVPCredentialManager.t)
  : list bool * AVPCredentialManager.t :=
  match calls with
  | [] => ([], m)
  | (now, c) :: rest =>
      let '(ok, m1) := exec now c m in
      let '(oks, m2) := run rest m1 in
      (ok :: oks, m2)
  end.

(** The credential operations that write an entry of their own. *)
Definition op_entry (now : nat) (c : call) : option AuditEntry :=
  match c with
  | Get ws nm => Some (mkAuditEntry now ws "retrieve" (Some nm))
  | Set_ ws nm _ _ => Some (mkAuditEntry now ws "store" (Some nm))
  | Rotate ws nm _ => Some (mkAuditEntry now ws "rotate" (Some nm))
  | ListCredentials _ | Cleanup _ _ => None
  end.

Definition is_credential_op (c : call) : bool :=
  match c with
  | Get _ _ | Set_ _ _ _ _ | Rotate _ _ _ => true
  | ListCredentials _ | Cleanup _ _ => false
  end.

Definition is_session_created (e : AuditEntry) : bool :=
  bool_decide (action e = "session_created").

(** The session the manager would use for [ws] has not expired at
    [now]: a cached one is still before its [expires_at]; a workspace
    with none gets a fresh one. *)
Definition session_valid (now : nat) (ws : string)
    (m : AVPCredentialManager.t) : bool :=
  match AVPCredentialManager._sessions m !! ws with
  | None => true
  | Some sid =>
      match AVP.sessions (AVPCredentialManager._client m) !! sid with
      | Some s => (now <? AVP.expires_at s)%nat
      | None => false
      end
  end.

End ManagerRun.

(** What a client call may change: the secrets, never the sessions. *)
Definition same_sessions (c c' : AVP.AVPClient) : Prop :=
  AVP.sessions c' = AVP.sessions c ∧
  AVP.next_session c' = AVP.next_session c ∧
  AVP.session_ttl c' = AVP.session_ttl c.

(** The session table of the manager agrees with the client: the
    identifier cached for a workspace names a session bound to that
    workspace, identifiers in use are below the next fresh one, and the
    [ttl] is the default. *)
Definition consistent (m : CrewAI.AVPCredentialManager.t) : Prop :=
  (∀ ws sid, CrewAI.AVPCredentialManager._sessions m !! ws = Some sid →
     ∃ s, AVP.sessions (CrewAI.AVPCredentialManager._client m) !! sid = Some s
          ∧ AVP.workspace s = ws) ∧
  (∀ sid s, AVP.sessions (CrewAI.AVPCredentialManager._client m) !! sid = Some s →
     sid < AVP.next_session (CrewAI.AVPCredentialManager._client m)) ∧
  AVP.session_ttl (CrewAI.AVPCredentialManager._client m) = 3600.

(** The session [authenticate] would issue for [ws] at [now]. *)
Definition fresh_session (now : nat) (ws : string)
    (m : CrewAI.AVPCredentialManager.t) : AVP.Session :=
  let c := CrewAI.AVPCredentialManager._client m in
  AVP.mkSession (AVP.next_session c) ws now
    (AVP.session_ttl c) (now + AVP.session_ttl c).

Definition call_workspace (c : ManagerRun.call) : string :=
  match c with
  | ManagerRun.Get ws _ | ManagerRun.Set_ ws _ _ _ | ManagerRun.Rotate ws _ _
  | ManagerRun.ListCredentials ws | ManagerRun.Cleanup ws _ => ws
  end.

(** The entry written when a call has to open the session of [ws]. *)
Definition session_entry (now : nat) (ws : string)
    (m : CrewAI.AVPCredentialManager.t) : list CrewAI.AuditEntry :=
  match CrewAI.AVPCredentialManager._sessions m !! ws with
  | Some _ => []
  | None => [CrewAI.mkAuditEntry now ws "session_created" None]
  end.

(** Whether the client call of a manager call returns: the method up
    to, and not including, its [_log_access]. *)
Definition backend_returns (now : nat) (c : ManagerRun.call)
    (m : CrewAI.AVPCredentialManager.t) : bool :=
  match c with
  | ManagerRun.Get ws nm =>
      Py.is_return
        ((sid ← CrewAI.AVPCredentialManager._get_session now ws;
          CrewAI.AVPCredentialManager.on_client
            (AVP.retrieve sid nm now)) m).1
  | ManagerRun.Set_ ws nm value lbl =>
      Py.is_return
        ((sid ← CrewAI.AVPCredentialManager._get_session now ws;
          CrewAI.AVPCredentialManager.on_client
            (AVP.store sid nm (Py.encode value) lbl now)) m).1
  | ManagerRun.Rotate ws nm new_value =>
      Py.is_return
        ((sid ← CrewAI.AVPCredentialManager._get_session now ws;
          CrewAI.AVPCredentialManager.on_client
            (AVP.rotate sid nm (Py.encode new_value) now)) m).1
  | ManagerRun.ListCredentials ws =>
      Py.is_return
        ((sid ← CrewAI.AVPCredentialManager._get_session now ws;
          CrewAI.AVPCredentialManager.on_client
            (AVP.list_secrets sid now)) m).1
  | ManagerRun.Cleanup ws nm =>
      Py.is_return
        ((sid ← CrewAI.AVPCredentialManager._get_session now ws;
          CrewAI.AVPCredentialManager.on_client
            (AVP.delete sid nm now)) m).1
  end.

(** The same for each call of a run, in order. *)
Fixpoint backend_run (calls : list (nat * ManagerRun.call))
    (m : CrewAI.AVPCredentialManager.t) : list bool :=
  match calls with
  | [] => []
  | (now, c) :: rest =>
      backend_returns now c m :: backend_run rest (ManagerRun.exec now c m).2
  end.

(** The entries a run is expected to append, call by call: first
    [session_created] if the workspace of the call has no session yet
    ([known] holds the workspaces that have one), then the entry of the
    operation if the client call returned. *)
Fixpoint trail (known : gset string) (calls : list (nat * ManagerRun.call))
    (returned : list bool) : list CrewAI.AuditEntry :=
  match calls, returned with
  | (now, c) :: calls', b :: returned' =>
      (if decide (call_workspace c ∈ known) then []
       else [CrewAI.mkAuditEntry now (call_workspace c) "session_created" None])
      ++ (if b : bool then option_list (ManagerRun.op_entry now c) else [])
      ++ trail ({[call_workspace c]} ∪ known) calls' returned'
  | _, _ => []
  end.

(** The wrong PINs at the head of a list of attempts. *)
Fixpoint leading_failures (ok : string → bool) (pins : list string) : nat :=
  match pins with
  | pin :: rest => if ok pin then 0 else S (leading_failures ok rest)
  | [] => 0
  end.

(** The current streak of a list of attempts: the wrong PINs tried
    since the last accepted one. *)
Definition streak (ok : string → bool) (pins : list string) : nat :=
  leading_failures ok (reverse pins).

(** ** Concrete objects, as the demo scripts build them *)

Module Examples.
Import Hardware KeySession ManagerRun.

(** A key set up with PIN 1234, unlocked, holding one credential. *)
Definition provisioned_key : NexusClaw.t :=
  KeySession.run
    [Connect; Setup "1234"; Authenticate "1234"; Store "api_key" "sk-test"]
    NexusClaw.init.

(** The same key after three wrong PINs. *)
Definition wiped_key : NexusClaw.t :=
  KeySession.run (attempts ["0000"; "1111"; "2222"]) provisioned_key.

(** Thirty-two one-letter slot names. *)
Definition slot_names : list string :=
  (λ n, String (Ascii.ascii_of_nat n) EmptyString) <$> seq 65 32.

(** A key with all 32 slots in use. *)
Definition full_key : NexusClaw.t :=
  KeySession.run
    ([Connect; Setup "1234"; Authenticate "1234"]
       ++ ((λ n, Store n "v") <$> slot_names))
    NexusClaw.init.

(** The scenario of the workshop: one key stored for the researcher. *)
Definition research_vault : CrewAI.AVPCredentialManager.t :=
  (ManagerRun.run
     [(0, Set_ "researcher" "anthropic_api_key" "sk-ant-test" None)]
     (CrewAI.AVPCredentialManager.init (AVP.open ∅))).2.

(** The calls of the audit demo, on the researcher and writer
    workspaces. *)
Definition audit_demo_calls : list (nat * ManagerRun.call) :=
  [(1, Get "researcher" "anthropic_api_key");
   (2, Set_ "researcher" "temp_token" "temp-value-123" None);
   (3, Rotate "researcher" "temp_token" "rotated-value-456");
   (4, Get "writer" "anthropic_api_key")].

(** Four calls that all return, the last on a workspace without a
    session. *)
Definition audit_returning_calls : list (nat * ManagerRun.call) :=
  [(1, Get "researcher" "anthropic_api_key");
   (2, Set_ "researcher" "temp_token" "temp-value-123" None);
   (3, Rotate "researcher" "temp_token" "rotated-value-456");
   (4, Set_ "writer" "style_guide_key" "sg-777" None)].

(** A vault in which the researcher's key is not text: two bytes that
    are not UTF-8, stored through the client as the set-up scripts
    store values. *)
Definition binary_vault : CrewAI.AVPCredentialManager.t :=
  let m := CrewAI.AVPCredentialManager.init (AVP.open ∅) in
  let '(_, m1) := CrewAI.AVPCredentialManager._get_session 0 "researcher" m in
  (CrewAI.AVPCredentialManager.on_client
     (AVP.store 0 "anthropic_api_key" [Byte.xff; Byte.xfe] None 0) m1).2.

(** A provider over a vault that holds one key for its workspace. *)
Definition langchain_provider : LangChain.AVPCredentialProvider.t :=
  match LangChain.AVPCredentialProvider.init (AVP.open ∅) "langchain" 0 with
  | Return p =>
      (LangChain.AVPCredentialProvider.set
         1 "anthropic_api_key" "sk-ant-test" p).2
  | Raise _ => LangChain.AVPCredentialProvider.mk "langchain" (AVP.open ∅) 0
  end.

End Examples.

(** ** Further definitions: the rest of the wrappers *)

(** Whether a call is a [setup] that the length check lets through. *)
Definition sets_pin (c : KeySession.call) : bool :=
  match c with
  | KeySession.Setup pin => 4 <=? Py.len pin
  | _ => false
  end.

(** Every PIN of the list is a wrong one for the device. *)
Definition all_rejected (d : Hardware.NexusClawSimulator.t)
    (pins : list string) : bool :=
  forallb (λ pin, negb (KeySession.is_pin d pin)) pins.

(** ** [avp_crewai.py]: [get_llm] *)

Module ManagerLLM.
Import CrewAI.

(** What [get_llm] takes from the LangChain packages: the two [import]
    statements, which run before the credential is fetched, and the two
    constructors, which run after it.  Each may raise. *)
Record LangChain (LLM : Type) : Type := mkLangChain {
  import_anthropic : result unit;
  ChatAnthropic : string → string → nat → result LLM;
  import_openai : result unit;
  ChatOpenAI : string → string → nat → result LLM
}.
Arguments import_anthropic {LLM} _.
Arguments ChatAnthropic {LLM} _ _ _ _.
Arguments import_openai {LLM} _.
Arguments ChatOpenAI {LLM} _ _ _ _.

Definition get_llm {LLM} (env : LangChain LLM) (now : nat)
    (ws provider : string) : Py.method AVPCredentialManager.t LLM :=
  available ← AVPCredentialManager.list_credentials now ws;
  provider ←
    (if bool_decide (provider = "auto") then
       if bool_decide ("anthropic_api_key" ∈ available) then mret "anthropic"
       else if bool_decide ("openai_api_key" ∈ available) then mret "openai"
       else Py.raise ValueError
     else mret provider);
  if bool_decide (provider = "anthropic") then
    Py.lift (import_anthropic env);;
    api_key ← AVPCredentialManager.get now ws "anthropic_api_key";
    Py.lift (ChatAnthropic env "claude-3-haiku-20240307" api_key 500)
  else if bool_decide (provider = "openai") then
    Py.lift (import_openai env);;
    api_key ← AVPCredentialManager.get now ws "openai_api_key";
    Py.lift (ChatOpenAI env "gpt-3.5-turbo" api_key 500)
  else Py.raise ValueError.

(** A chat model described by its class and keyword arguments. *)
Inductive model : Type :=
| Anthropic (name api_key : string) (max_tokens : nat)
| OpenAI (name api_key : string) (max_tokens : nat).

(** Both packages installed, both constructors returning. *)
Definition installed : LangChain model :=
  {| import_anthropic := Return tt;
     ChatAnthropic := λ name key n, Return (Anthropic name key n);
     import_openai := Return tt;
     ChatOpenAI := λ name key n, Return (OpenAI name key n) |}.

(** Both packages installed, the Anthropic constructor refusing its
    arguments. *)
Definition refusing : LangChain model :=
  {| import_anthropic := Return tt;
     ChatAnthropic := λ _ _ _, Raise ValueError;
     import_openai := Return tt;
     ChatOpenAI := λ name key n, Return (OpenAI name key n) |}.

End ManagerLLM.

(** The workspaces for which the log records an opened session. *)
Definition sessions_logged (m : CrewAI.AVPCredentialManager.t) : list string :=
  CrewAI.workspace <$>
    filter (λ e, ManagerRun.is_session_created e = true)
           (CrewAI.AVPCredentialManager._audit_log m).

(** * Properties *)

Ltac unfold_py :=
  unfold mbind, method_bind, Py.bind, mret, method_ret, Py.ret, Py.self,
    Py.modify, Py.read, Py.raise, Py.lift, Py.try_except_raise in *.

Ltac unfold_guarded :=
  unfold Hardware.NexusClaw.store, Hardware.NexusClaw.retrieve,
    Hardware.NexusClaw.delete, Hardware.NexusClaw.list,
    Hardware.NexusClaw.require_authenticated, Py.self, Py.raise,
    mbind, method_bind, Py.bind, mret, method_ret, Py.ret,
    Hardware.NexusClaw.on_device.

(** ** The simulated secure element *)

Section Simulator.
Import Hardware NexusClawSimulator.
Implicit Types (d : NexusClawSimulator.t) (pin name : string).

Lemma verify_pin_accept pin d :
  _pin d = Some pin →
  verify_pin pin d = (Return true, set_failed_attempts 0 d).
Proof.
  intros Hp. unfold verify_pin. rewrite Hp.
  rewrite bool_decide_eq_true_2; done.
Qed.

Lemma verify_pin_reject pin d :
  _pin d ≠ Some pin →
  verify_pin pin d =
    (Return false,
     if (_max_attempts d <=? _failed_attempts d + 1)
     then set_slots ∅ (set_failed_attempts (_failed_attempts d + 1) d)
     else set_failed_attempts (_failed_attempts d + 1) d).
Proof.
  intros Hp. unfold verify_pin.
  rewrite bool_decide_eq_false_2 by congruence. simpl.
  by destruct (_max_attempts d <=? _failed_attempts d + 1).
Qed.

(** Round trip on the device: the bytes are stored and read as they are. *)
Lemma simulator_store_retrieve name (v : bytes) d :
  size (_slots d) < _max_slots d →
  ∃ d', NexusClawSimulator.store name v d = (Return true, d') ∧
        NexusClawSimulator.retrieve name d' = (Return v, d').
Proof.
  intros Hfree. unfold NexusClawSimulator.store.
  rewrite (proj2 (Nat.leb_gt _ _) Hfree).
  eexists. split; [done|].
  unfold NexusClawSimulator.retrieve. simpl.
  by rewrite lookup_insert_eq.
Qed.

Lemma decode_encode (value : string) : Py.decode (Py.encode value) = value.
Proof. apply String.string_of_list_byte_of_string. Qed.

End Simulator.

(** ** PIN attempts on the key *)

Section Attempts.
Import Hardware NexusClawSimulator NexusClaw KeySession.
Implicit Types (nc : NexusClaw.t) (pin name value : string).

Lemma authenticate_accept pin nc :
  _pin (_device nc) = Some pin →
  authenticate pin nc =
    (Return true,
     NexusClaw.mk (_simulation nc) (set_failed_attempts 0 (_device nc)) true).
Proof.
  intros Hp. unfold authenticate, mbind, method_bind, Py.bind, on_device.
  by rewrite (verify_pin_accept _ _ Hp).
Qed.

Lemma authenticate_reject pin nc :
  _pin (_device nc) ≠ Some pin →
  authenticate pin nc =
    (Return false,
     NexusClaw.mk (_simulation nc)
       (if (_max_attempts (_device nc) <=? _failed_attempts (_device nc) + 1)
        then set_slots ∅
               (set_failed_attempts (_failed_attempts (_device nc) + 1)
                  (_device nc))
        else set_failed_attempts (_failed_attempts (_device nc) + 1)
               (_device nc))
       (_authenticated nc)).
Proof.
  intros Hp. unfold authenticate, mbind, method_bind, Py.bind, on_device.
  by rewrite (verify_pin_reject _ _ Hp).
Qed.

Lemma authenticate_true_inv pin nc nc' :
  authenticate pin nc = (Return true, nc') →
  _pin (_device nc) = Some pin ∧
  nc' = NexusClaw.mk (_simulation nc)
          (set_failed_attempts 0 (_device nc)) true.
Proof.
  destruct (decide (_pin (_device nc) = Some pin)) as [Hp|Hp].
  - rewrite (authenticate_accept _ _ Hp). intros [= <-]. done.
  - rewrite (authenticate_reject _ _ Hp). intros [= ?].
Qed.

Lemma authenticate_false_inv pin nc nc' :
  authenticate pin nc = (Return false, nc') →
  _pin (_device nc) ≠ Some pin ∧
  _authenticated nc' = _authenticated nc ∧
  _pin (_device nc') = _pin (_device nc) ∧
  _pin_set (_device nc') = _pin_set (_device nc) ∧
  _max_attempts (_device nc') = _max_attempts (_device nc) ∧
  _failed_attempts (_device nc') = _failed_attempts (_device nc) + 1 ∧
  _slots (_device nc') =
    (if (_max_attempts (_device nc) <=? _failed_attempts (_device nc) + 1)
     then ∅ else _slots (_device nc)).
Proof.
  destruct (decide (_pin (_device nc) = Some pin)) as [Hp|Hp].
  - rewrite (authenticate_accept _ _ Hp). intros [= ?].
  - rewrite (authenticate_reject _ _ Hp). intros [= <-]. simpl.
    by destruct (_max_attempts (_device nc) <=? _failed_attempts (_device nc) + 1).
Qed.

(** [authenticate] reports every outcome as a Boolean; it raises nothing. *)
Lemma authenticate_returns pin nc :
  ∃ b, (authenticate pin nc).1 = Return b.
Proof.
  destruct (decide (_pin (_device nc) = Some pin)) as [Hp|Hp].
  - exists true. by rewrite (authenticate_accept _ _ Hp).
  - exists false. by rewrite (authenticate_reject _ _ Hp).
Qed.

Lemma authenticate_true_iff pin nc :
  (authenticate pin nc).1 = Return true ↔ _pin (_device nc) = Some pin.
Proof.
  destruct (decide (_pin (_device nc) = Some pin)) as [Hp|Hp].
  - by rewrite (authenticate_accept _ _ Hp).
  - rewrite (authenticate_reject _ _ Hp). simpl. split; [done|congruence].
Qed.

(** The two limits are set by [__init__] and written by no method. *)
Lemma exec_limits c nc :
  _max_attempts (_device (exec c nc)) = _max_attempts (_device nc) ∧
  _max_slots (_device (exec c nc)) = _max_slots (_device nc).
Proof.
  destruct c; simpl; try done.
  - unfold setup, on_device, setup_pin.
    by destruct (Py.len pin <? 4).
  - destruct (decide (_pin (_device nc) = Some pin)) as [Hp|Hp].
    + by rewrite (authenticate_accept _ _ Hp).
    + rewrite (authenticate_reject _ _ Hp). simpl.
      by destruct (_max_attempts (_device nc) <=? _failed_attempts (_device nc) + 1).
  - unfold_guarded. unfold NexusClawSimulator.store.
    destruct (_authenticated nc); simpl; [|done].
    by destruct (_max_slots (_device nc) <=? size (_slots (_device nc))).
  - unfold_guarded. unfold NexusClawSimulator.retrieve.
    destruct (_authenticated nc); simpl; [|done].
    by destruct (_slots (_device nc) !! name).
  - unfold_guarded. unfold NexusClawSimulator.delete.
    destruct (_authenticated nc); simpl; [|done].
    by destruct (_slots (_device nc) !! name).
  - unfold_guarded. by destruct (_authenticated nc).
Qed.

Lemma run_snoc calls c nc :
  KeySession.run (calls ++ [c]) nc = exec c (KeySession.run calls nc).
Proof. unfold KeySession.run. by rewrite foldl_app. Qed.

Lemma run_limits calls nc :
  _max_attempts (_device (KeySession.run calls nc)) = _max_attempts (_device nc) ∧
  _max_slots (_device (KeySession.run calls nc)) = _max_slots (_device nc).
Proof.
  revert nc. induction calls as [|c calls IH]; intros nc; [done|].
  simpl. destruct (IH (exec c nc)) as [-> ->]. apply exec_limits.
Qed.

Lemma run_init_limits calls :
  _max_attempts (_device (KeySession.run calls NexusClaw.init)) = 3 ∧
  _max_slots (_device (KeySession.run calls NexusClaw.init)) = 32.
Proof. by destruct (run_limits calls NexusClaw.init) as [-> ->]. Qed.

(** C5.  On every key the program can hold (any sequence of calls on a
    new object), three [authenticate] calls in a row that each return
    [False] leave the slot mapping empty. *)
Theorem three_failures_wipe calls p1 p2 p3 nc1 nc2 nc3 :
  let nc := KeySession.run calls NexusClaw.init in
  authenticate p1 nc = (Return false, nc1) →
  authenticate p2 nc1 = (Return false, nc2) →
  authenticate p3 nc2 = (Return false, nc3) →
  _slots (_device nc3) = ∅.
Proof.
  intros nc H1 H2 H3.
  destruct (run_init_limits calls) as [Hmax _]. fold nc in Hmax.
  apply authenticate_false_inv in H1 as (_ & _ & _ & _ & Hm1 & Hf1 & _).
  apply authenticate_false_inv in H2 as (_ & _ & _ & _ & Hm2 & Hf2 & _).
  apply authenticate_false_inv in H3 as (_ & _ & _ & _ & _ & _ & ->).
  rewrite Hm2, Hm1, Hmax, Hf2, Hf1.
  replace (3 <=? _ + 1 + 1 + 1) with true; [done|].
  symmetry. apply Nat.leb_le. lia.
Qed.

Lemma three_failures_wipe_witness :
  _slots (_device Examples.provisioned_key) !! "api_key"
    = Some (Py.encode "sk-test") ∧
  _slots (_device Examples.wiped_key) = ∅.
Proof.
  split; [reflexivity|].
  apply (three_failures_wipe
           [Connect; Setup "1234"; Authenticate "1234";
            Store "api_key" "sk-test"]
           "0000" "1111" "2222"
           (KeySession.run (attempts ["0000"]) Examples.provisioned_key)
           (KeySession.run (attempts ["0000"; "1111"]) Examples.provisioned_key)
           Examples.wiped_key); reflexivity.
Defined.

End Attempts.

(** ** Lockout, set-up and capacity *)

Section Lockout.
Import Hardware NexusClawSimulator NexusClaw KeySession.
Implicit Types (nc : NexusClaw.t) (pin name value : string).

(** C1, as stated, fails on the key that has just been locked out: the
    counter stands at the limit and the slots are gone, yet the PIN is
    still configured, the old PIN is accepted without a new [setup], and
    the call that erased the slots returned what the first failed
    attempt returned. *)
Lemma wipe_is_not_terminal :
  _failed_attempts (_device Examples.wiped_key) = 3 ∧
  _max_attempts (_device Examples.wiped_key) = 3 ∧
  _slots (_device Examples.wiped_key) = ∅ ∧
  _pin_set (_device Examples.wiped_key) = true ∧
  _pin (_device Examples.wiped_key) = Some "1234" ∧
  (authenticate "1234" Examples.wiped_key).1 = Return true ∧
  (authenticate "2222"
     (KeySession.run (attempts ["0000"; "1111"]) Examples.provisioned_key)).1
    = (authenticate "0000" Examples.provisioned_key).1.
Proof. repeat split; reflexivity. Qed.

(** C1, amended.  A failed [authenticate] that brings the counter to
    [max_attempts] erases every slot and returns [False] like any other
    failed attempt ([authenticate] never raises).  The PIN stays
    configured: the next [authenticate] with the correct PIN succeeds
    without [setup], unlocks the key and resets the counter to 0; the
    erased slots stay erased. *)
Theorem lockout_erases_slots_keeps_pin nc pin nc' :
  authenticate pin nc = (Return false, nc') →
  _max_attempts (_device nc') ≤ _failed_attempts (_device nc') →
  (∀ p n, ∃ b, (authenticate p n).1 = Return b) ∧
  _slots (_device nc') = ∅ ∧
  _pin (_device nc') = _pin (_device nc) ∧
  _pin_set (_device nc') = _pin_set (_device nc) ∧
  ∀ p, _pin (_device nc) = Some p →
    ∃ nc'', authenticate p nc' = (Return true, nc'') ∧
            _authenticated nc'' = true ∧
            _failed_attempts (_device nc'') = 0 ∧
            _slots (_device nc'') = ∅.
Proof.
  intros Hauth Hmax.
  apply authenticate_false_inv in Hauth as (_ & _ & Hpin & Hset & Hm & Hf & Hs).
  split; [apply authenticate_returns|].
  assert (_slots (_device nc') = ∅) as Hempty.
  { rewrite Hs. rewrite Hm, Hf in Hmax.
    by rewrite (proj2 (Nat.leb_le _ _) Hmax). }
  repeat split; try done.
  intros p Hp. eexists. split.
  - apply authenticate_accept. by rewrite Hpin.
  - done.
Qed.

Lemma lockout_erases_slots_keeps_pin_witness :
  _slots (_device Examples.wiped_key) = ∅ ∧
  ∃ nc'', authenticate "1234" Examples.wiped_key = (Return true, nc'') ∧
          _authenticated nc'' = true ∧
          _failed_attempts (_device nc'') = 0 ∧
          _slots (_device nc'') = ∅.
Proof.
  destruct (lockout_erases_slots_keeps_pin
              (KeySession.run (attempts ["0000"; "1111"]) Examples.provisioned_key)
              "2222" Examples.wiped_key)
    as (_ & Hs & _ & _ & Hre).
  - reflexivity.
  - vm_compute. lia.
  - split; [exact Hs|]. apply Hre. reflexivity.
Defined.

(** C4.  On an unlocked key with a free slot, [store(name, value)]
    returns, and [retrieve(name)] right after it returns exactly
    [value]; on the device the slot holds exactly the bytes of
    [value]. *)
Theorem store_then_retrieve nc name value :
  _authenticated nc = true →
  size (_slots (_device nc)) < _max_slots (_device nc) →
  ∃ nc', NexusClaw.store name value nc = (Return true, nc') ∧
         NexusClaw.retrieve name nc' = (Return value, nc') ∧
         NexusClawSimulator.retrieve name (_device nc')
           = (Return (Py.encode value), _device nc').
Proof.
  intros Hauth Hfree.
  destruct (simulator_store_retrieve name (Py.encode value) _ Hfree)
    as (d' & Hst & Hre).
  exists (NexusClaw.mk (_simulation nc) d' true).
  unfold_guarded.
  rewrite Hauth. simpl. rewrite Hst. simpl. rewrite Hre.
  by rewrite decode_encode, Hauth.
Qed.

Lemma store_then_retrieve_witness :
  ∃ nc', NexusClaw.store "openai_api_key" "sk-proj-42" Examples.provisioned_key
           = (Return true, nc') ∧
         NexusClaw.retrieve "openai_api_key" nc' = (Return "sk-proj-42", nc') ∧
         NexusClawSimulator.retrieve "openai_api_key" (_device nc')
           = (Return (Py.encode "sk-proj-42"), _device nc').
Proof.
  apply (store_then_retrieve Examples.provisioned_key).
  - reflexivity.
  - vm_compute. lia.
Defined.

(** C6, as stated, fails: a successful [setup_pin] leaves the PIN itself
    in the device state. *)
Lemma setup_keeps_the_pin_itself :
  ¬ (∀ pin d d', setup_pin pin d = (Return true, d') → _pin d' ≠ Some pin).
Proof.
  intros H.
  apply (H "1234" NexusClawSimulator.init
           (set_pin "1234" NexusClawSimulator.init)); reflexivity.
Qed.

(** C6, amended.  [setup_pin] raises [ValueError] on a PIN shorter than
    4 characters (code points, as [len] counts them) and changes
    nothing; on any other PIN it returns [True], records the PIN value
    itself in [_pin], sets [_pin_set], and leaves slots and counter as
    they were. *)
Theorem setup_pin_length_and_state pin (d : NexusClawSimulator.t) :
  (Py.len pin < 4 → setup_pin pin d = (Raise ValueError, d)) ∧
  (4 ≤ Py.len pin →
     ∃ d', setup_pin pin d = (Return true, d') ∧
           _pin d' = Some pin ∧ _pin_set d' = true ∧
           _slots d' = _slots d ∧
           _failed_attempts d' = _failed_attempts d).
Proof.
  unfold setup_pin. split; intros Hlen.
  - by rewrite (proj2 (Nat.ltb_lt _ _) Hlen).
  - rewrite (proj2 (Nat.ltb_ge _ _) Hlen). by eexists.
Qed.

Lemma setup_pin_length_and_state_witness :
  setup_pin "123" NexusClawSimulator.init
    = (Raise ValueError, NexusClawSimulator.init) ∧
  setup_pin "éé" NexusClawSimulator.init
    = (Raise ValueError, NexusClawSimulator.init) ∧
  ∃ d', setup_pin "1234" NexusClawSimulator.init = (Return true, d') ∧
        _pin d' = Some "1234" ∧ _pin_set d' = true ∧
        _slots d' = _slots NexusClawSimulator.init ∧
        _failed_attempts d' = _failed_attempts NexusClawSimulator.init.
Proof.
  split; [|split].
  - apply (proj1 (setup_pin_length_and_state "123" NexusClawSimulator.init)).
    simpl. lia.
  - apply (proj1 (setup_pin_length_and_state "éé" NexusClawSimulator.init)).
    vm_compute. lia.
  - apply (proj2 (setup_pin_length_and_state "1234" NexusClawSimulator.init)).
    simpl. lia.
Defined.

(** C7, as stated, fails on a key with all 32 slots in use: the refused
    [store] raises [ValueError], not [CapacityError]. *)
Lemma full_key_store_raises_ValueError :
  _authenticated Examples.full_key = true ∧
  size (_slots (_device Examples.full_key))
    = _max_slots (_device Examples.full_key) ∧
  (NexusClaw.store "one_more" "v" Examples.full_key).1 = Raise ValueError ∧
  (NexusClaw.store "one_more" "v" Examples.full_key).1
    ≠ Raise (AVPError CapacityError).
Proof. vm_compute. repeat split; congruence. Qed.

(** C7, amended.  Once the slot count has reached [max_slots], a further
    [store] on the device raises [ValueError] and leaves the device, and
    with it every slot, exactly as it was; through the key object the
    call raises that [ValueError] when unlocked (and [PermissionError]
    when locked), again with no change. *)
Theorem store_on_full_device nc name value :
  _max_slots (_device nc) ≤ size (_slots (_device nc)) →
  (∀ v, NexusClawSimulator.store name v (_device nc)
        = (Raise ValueError, _device nc)) ∧
  NexusClaw.store name value nc
    = (Raise (if _authenticated nc then ValueError else PermissionError), nc).
Proof.
  intros Hfull.
  assert (∀ v, NexusClawSimulator.store name v (_device nc)
               = (Raise ValueError, _device nc)) as Hsim.
  { intros v. unfold NexusClawSimulator.store.
    by rewrite (proj2 (Nat.leb_le _ _) Hfull). }
  split; [done|].
  unfold_guarded. destruct nc as [sim d [|]]; simpl in *; [|done].
  by rewrite Hsim.
Qed.

Lemma store_on_full_device_witness :
  (∀ v, NexusClawSimulator.store "one_more" v (_device Examples.full_key)
        = (Raise ValueError, _device Examples.full_key)) ∧
  NexusClaw.store "one_more" "v" Examples.full_key
    = (Raise ValueError, Examples.full_key).
Proof.
  apply (store_on_full_device Examples.full_key "one_more" "v").
  vm_compute. lia.
Defined.

End Lockout.

(** ** The lock of the key object *)

Section Lock.
Import Hardware NexusClawSimulator NexusClaw KeySession.
Implicit Types (nc : NexusClaw.t) (pin name value : string).

Lemma locked_refuses nc name value :
  _authenticated nc = false →
  NexusClaw.store name value nc = (Raise PermissionError, nc) ∧
  NexusClaw.retrieve name nc = (Raise PermissionError, nc) ∧
  NexusClaw.delete name nc = (Raise PermissionError, nc).
Proof. intros H. unfold_guarded. by rewrite H. Qed.

Lemma unlocked_accepts nc name value :
  _authenticated nc = true →
  (NexusClaw.store name value nc).1 ≠ Raise PermissionError ∧
  (NexusClaw.retrieve name nc).1 ≠ Raise PermissionError ∧
  (NexusClaw.delete name nc).1 ≠ Raise PermissionError.
Proof.
  intros H. unfold_guarded. rewrite H. simpl.
  unfold NexusClawSimulator.store, NexusClawSimulator.retrieve,
    NexusClawSimulator.delete.
  destruct (_max_slots (_device nc) <=? size (_slots (_device nc)));
    destruct (_slots (_device nc) !! name); simpl; done.
Qed.

(** The flag after one call: only [disconnect] clears it, only an
    accepted PIN sets it. *)
Lemma exec_authenticated c nc :
  _authenticated (exec c nc) =
    match c with
    | Disconnect => false
    | Authenticate pin =>
        if decide (_pin (_device nc) = Some pin) then true
        else _authenticated nc
    | _ => _authenticated nc
    end.
Proof.
  destruct c; simpl; try done.
  - unfold setup, on_device. by destruct (setup_pin pin (_device nc)).
  - destruct (decide (_pin (_device nc) = Some pin)) as [Hp|Hp].
    + by rewrite (authenticate_accept _ _ Hp).
    + by rewrite (authenticate_reject _ _ Hp).
  - unfold_guarded. destruct (_authenticated nc) eqn:E; simpl; [|done].
    by destruct (NexusClawSimulator.store _ _ _).
  - unfold_guarded. destruct (_authenticated nc) eqn:E; simpl; [|done].
    by destruct (NexusClawSimulator.retrieve _ _) as [[]].
  - unfold_guarded. destruct (_authenticated nc) eqn:E; simpl; [|done].
    by destruct (NexusClawSimulator.delete _ _).
  - unfold_guarded. by destruct (_authenticated nc) eqn:E.
Qed.

Lemma unlocked_by_snoc calls c nc0 :
  unlocked_by (calls ++ [c]) nc0 ↔
    (∃ pin, c = Authenticate pin ∧
            (authenticate pin (KeySession.run calls nc0)).1 = Return true)
    ∨ (c ≠ Disconnect ∧ unlocked_by calls nc0).
Proof.
  split.
  - intros (before & pin & after & Heq & Hok & Hnd).
    destruct after as [|x after _] using rev_ind.
    + apply app_inj_tail in Heq as [-> ->]. left. eauto.
    + change (Authenticate pin :: after ++ [x])
        with ((Authenticate pin :: after) ++ [x]) in Heq.
      rewrite app_assoc in Heq. apply app_inj_tail in Heq as [-> ->].
      right. split.
      * intros ->. apply Hnd. apply elem_of_app. right.
        by apply list_elem_of_singleton.
      * exists before, pin, after. repeat split; [done|].
        intros Hin. apply Hnd. apply elem_of_app. by left.
  - intros [(pin & -> & Hok)|(Hc & before & pin & after & -> & Hok & Hnd)].
    + exists calls, pin, []. repeat split; [done|apply not_elem_of_nil].
    + exists before, pin, (after ++ [c]). repeat split.
      * by rewrite <- app_assoc.
      * done.
      * intros [Hin|Hin%list_elem_of_singleton]%elem_of_app; [by apply Hnd|].
        by apply Hc.
Qed.

(** The flag is set exactly when the calls so far unlocked the key. *)
Lemma authenticated_iff_unlocked calls :
  _authenticated (KeySession.run calls NexusClaw.init) = true ↔
  unlocked_by calls NexusClaw.init.
Proof.
  induction calls as [|c calls IH] using rev_ind.
  - simpl. split; [done|].
    intros (before & pin & after & Heq & _). by destruct before.
  - rewrite run_snoc, exec_authenticated, unlocked_by_snoc.
    destruct c;
      try (rewrite IH; split;
           [ intros H; right; split; [discriminate|exact H]
           | intros [(? & [=] & _)|[_ H]]; exact H ]).
    + case_decide as Hok.
      * split; [|done]. intros _. left. exists pin.
        split; [done|]. by apply authenticate_true_iff.
      * rewrite IH. split.
        -- intros H. right. split; [discriminate|exact H].
        -- intros [(pin' & [= <-] & Hy)|[_ H]]; [|exact H].
           by apply authenticate_true_iff in Hy.
    + split; [discriminate|].
      intros [(? & [=] & _)|[Hc _]]. by destruct Hc.
Qed.

(** C9.  After any sequence of calls on a new key object: if no
    [authenticate] has succeeded since construction or since the last
    [disconnect], then [store], [retrieve] and [delete] each raise
    [PermissionError] and leave the object, slots included, unchanged;
    and if one has, none of the three raises [PermissionError]. *)
Theorem calls_need_unlocked_key calls name value :
  let nc := KeySession.run calls NexusClaw.init in
  (¬ unlocked_by calls NexusClaw.init →
     NexusClaw.store name value nc = (Raise PermissionError, nc) ∧
     NexusClaw.retrieve name nc = (Raise PermissionError, nc) ∧
     NexusClaw.delete name nc = (Raise PermissionError, nc))
  ∧ (unlocked_by calls NexusClaw.init →
     (NexusClaw.store name value nc).1 ≠ Raise PermissionError ∧
     (NexusClaw.retrieve name nc).1 ≠ Raise PermissionError ∧
     (NexusClaw.delete name nc).1 ≠ Raise PermissionError).
Proof.
  intros nc. split; intros H.
  - apply locked_refuses.
    destruct (_authenticated nc) eqn:E; [|done].
    exfalso. by apply H, authenticated_iff_unlocked.
  - by apply unlocked_accepts, authenticated_iff_unlocked.
Qed.

Lemma calls_need_unlocked_key_witness :
  (let nc := KeySession.run [Connect; Setup "1234"; Authenticate "0000"]
               NexusClaw.init in
   NexusClaw.store "k" "v" nc = (Raise PermissionError, nc) ∧
   NexusClaw.retrieve "k" nc = (Raise PermissionError, nc) ∧
   NexusClaw.delete "k" nc = (Raise PermissionError, nc)) ∧
  (let nc := KeySession.run
               [Connect; Setup "1234"; Authenticate "1234"; Disconnect]
               NexusClaw.init in
   NexusClaw.store "k" "v" nc = (Raise PermissionError, nc) ∧
   NexusClaw.retrieve "k" nc = (Raise PermissionError, nc) ∧
   NexusClaw.delete "k" nc = (Raise PermissionError, nc)) ∧
  (let nc := KeySession.run
               [Connect; Setup "1234"; Authenticate "1234"; Authenticate "0000"]
               NexusClaw.init in
   (NexusClaw.store "k" "v" nc).1 ≠ Raise PermissionError ∧
   (NexusClaw.retrieve "k" nc).1 ≠ Raise PermissionError ∧
   (NexusClaw.delete "k" nc).1 ≠ Raise PermissionError).
Proof.
  split; [|split].
  - apply (proj1 (calls_need_unlocked_key
                    [Connect; Setup "1234"; Authenticate "0000"] "k" "v")).
    intros H%authenticated_iff_unlocked. discriminate H.
  - apply (proj1 (calls_need_unlocked_key
                    [Connect; Setup "1234"; Authenticate "1234"; Disconnect]
                    "k" "v")).
    intros H%authenticated_iff_unlocked. discriminate H.
  - apply (proj2 (calls_need_unlocked_key
                    [Connect; Setup "1234"; Authenticate "1234";
                     Authenticate "0000"] "k" "v")).
    exists [Connect; Setup "1234"], "1234", [Authenticate "0000"].
    split; [reflexivity|]. split; [reflexivity|].
    intros [H|H%elem_of_nil]%elem_of_cons; [discriminate H|exact H].
Defined.

End Lock.

(** ** Streaks of failed attempts *)

Section Streak.
Import Hardware NexusClawSimulator NexusClaw KeySession.
Implicit Types (nc : NexusClaw.t) (pin : string)
  (pins : Datatypes.list string).

(** [every_window] says what it should: each block of [k] consecutive
    attempts contains an accepted one. *)
Lemma every_window_spec k ok pins :
  0 < k →
  every_window k ok pins = true ↔
  ∀ l1 w l2, pins = l1 ++ w ++ l2 → length w = k →
             ∃ pin, pin ∈ w ∧ ok pin = true.
Proof.
  intros Hk. induction pins as [|pin rest IH].
  - split; [|done]. intros _ l1 w l2 Heq Hlen.
    symmetry in Heq. apply app_eq_nil in Heq as [_ [-> _]%app_eq_nil].
    simpl in Hlen. lia.
  - cbn [every_window]. rewrite andb_true_iff, orb_true_iff, IH.
    split.
    + intros [Hhead Htail] l1 w l2 Heq Hlen.
      destruct l1 as [|a l1].
      * destruct Hhead as [Hshort%Nat.ltb_lt|Hex].
        { rewrite Heq, !length_app in Hshort. simpl in *. lia. }
        simpl in Heq. rewrite Heq, <- Hlen, take_app_length in Hex.
        apply existsb_exists in Hex as (x & Hin & Hx).
        exists x. by rewrite list_elem_of_In.
      * injection Heq as -> Heq. by apply (Htail l1 w l2).
    + intros Hall. split.
      * destruct (decide (length (pin :: rest) < k)) as [Hlt|Hge].
        { left. by apply Nat.ltb_lt. }
        right.
        destruct (Hall [] (take k (pin :: rest)) (drop k (pin :: rest)))
          as (x & Hin & Hx).
        { by rewrite app_nil_l, take_drop. }
        { rewrite length_take. lia. }
        apply existsb_exists. exists x. by rewrite <- list_elem_of_In.
      * intros l1 w l2 -> Hlen. by apply (Hall (pin :: l1) w l2).
Qed.

Lemma every_window_head k ok pins :
  every_window k ok pins = true → 0 < k → k ≤ length pins →
  existsb ok (take k pins) = true.
Proof.
  destruct pins as [|pin rest]; simpl; [lia|].
  intros [Hw _]%andb_true_iff Hk Hlen.
  apply orb_true_iff in Hw as [Hw|Hw]; [|done].
  apply Nat.ltb_lt in Hw. lia.
Qed.

Lemma run_attempts_cons pin pins nc :
  KeySession.run (attempts (pin :: pins)) nc
  = KeySession.run (attempts pins) (authenticate pin nc).2.
Proof. done. Qed.

(** The counter is the length of the current streak of failures: as
    long as a success comes before the streak reaches the limit, no
    attempt erases the slots. *)
Lemma streak_below_limit (p : option string) k pins : ∀ nc n,
  _pin (_device nc) = p →
  _max_attempts (_device nc) = k →
  _failed_attempts (_device nc) < k →
  (k - _failed_attempts (_device nc) ≤ length pins →
     existsb (λ pin, bool_decide (Some pin = p))
             (take (k - _failed_attempts (_device nc)) pins) = true) →
  every_window k (λ pin, bool_decide (Some pin = p)) pins = true →
  let nc' := KeySession.run (attempts (take n pins)) nc in
  _slots (_device nc') = _slots (_device nc) ∧
  _failed_attempts (_device nc') < k.
Proof.
  induction pins as [|pin rest IH]; intros nc n Hp Hk Hc Hfirst Hwin.
  { by rewrite take_nil. }
  destruct n as [|n]; [done|].
  rewrite firstn_cons, run_attempts_cons.
  pose proof Hwin as [_ Hrest]%andb_true_iff. fold every_window in Hrest.
  destruct (decide (_pin (_device nc) = Some pin)) as [Hok|Hbad].
  - rewrite (authenticate_accept _ _ Hok). simpl.
    apply (IH (NexusClaw.mk _ (set_failed_attempts 0 (_device nc)) true)).
    + done.
    + done.
    + simpl. lia.
    + simpl. rewrite Nat.sub_0_r. intros Hlen.
      apply every_window_head; [done|lia|done].
    + done.
  - assert (bool_decide (Some pin = p) = false) as Hpin.
    { apply bool_decide_eq_false_2. congruence. }
    assert (_failed_attempts (_device nc) + 1 < k) as Hc'.
    { destruct (decide (_failed_attempts (_device nc) + 1 < k)); [done|].
      exfalso.
      replace (k - _failed_attempts (_device nc)) with 1 in Hfirst by lia.
      simpl in Hfirst. rewrite Hpin in Hfirst.
      specialize (Hfirst ltac:(lia)). done. }
    rewrite (authenticate_reject _ _ Hbad). simpl.
    rewrite Hk, (proj2 (Nat.leb_gt _ _) Hc').
    apply (IH (NexusClaw.mk _ (set_failed_attempts _ (_device nc)) _)).
    + done.
    + done.
    + done.
    + simpl. intros Hlen.
      replace (k - _failed_attempts (_device nc))
        with (S (k - (_failed_attempts (_device nc) + 1))) in Hfirst by lia.
      simpl in Hfirst. rewrite Hpin in Hfirst.
      apply Hfirst. lia.
    + done.
Qed.

Lemma streak_snoc (ok : string → bool) pins pin :
  streak ok (pins ++ [pin]) = if ok pin then 0 else S (streak ok pins).
Proof. unfold streak. by rewrite reverse_snoc. Qed.

(** [authenticate] returns [True] for the stored PIN, and for it
    only. *)
Lemma authenticate_outcome pin nc :
  (authenticate pin nc).1 = Return (is_pin (_device nc) pin).
Proof.
  unfold is_pin.
  destruct (decide (_pin (_device nc) = Some pin)) as [Hp|Hp].
  - rewrite (authenticate_accept _ _ Hp). simpl.
    by rewrite bool_decide_eq_true_2.
  - rewrite (authenticate_reject _ _ Hp). simpl.
    by rewrite bool_decide_eq_false_2.
Qed.

Lemma run_attempts_pin pins : ∀ nc,
  _pin (_device (KeySession.run (attempts pins) nc)) = _pin (_device nc).
Proof.
  induction pins as [|pin pins IH]; intros nc; [done|].
  rewrite run_attempts_cons, IH.
  destruct (decide (_pin (_device nc) = Some pin)) as [Hp|Hp].
  - by rewrite (authenticate_accept _ _ Hp).
  - rewrite (authenticate_reject _ _ Hp). simpl.
    by destruct (_max_attempts (_device nc) <=? _failed_attempts (_device nc) + 1).
Qed.

(** The counter holds the length of the current streak of failures. *)
Lemma counter_is_streak pins nc :
  _failed_attempts (_device nc) = 0 →
  _failed_attempts (_device (KeySession.run (attempts pins) nc))
  = streak (is_pin (_device nc)) pins.
Proof.
  intros Hzero. induction pins as [|pin pins IH] using rev_ind; [done|].
  unfold attempts in *. rewrite fmap_snoc, run_snoc, streak_snoc. simpl.
  pose proof (run_attempts_pin pins nc) as Hpin. unfold attempts in Hpin.
  unfold is_pin at 1. rewrite <- Hpin.
  destruct (decide (_pin (_device (KeySession.run (Authenticate <$> pins) nc))
                    = Some pin)) as [Hp|Hp].
  - rewrite (authenticate_accept _ _ Hp). simpl.
    by rewrite bool_decide_eq_true_2.
  - rewrite (authenticate_reject _ _ Hp). simpl.
    rewrite bool_decide_eq_false_2 by done. rewrite <- IH.
    destruct (_ <=? _); simpl; lia.
Qed.

(** C10.  [authenticate] returns [True] exactly for the stored PIN, and
    such a call sets the failed-attempt counter to 0 and leaves the
    slots alone.  Hence, starting with the counter at 0, take a
    sequence of attempts in which every [max_attempts] consecutive
    attempts include the correct PIN (each streak of failures is cut by
    a success before it reaches the limit).  At every point of the
    sequence the slots are as at the start, the counter holds the
    number of wrong PINs tried since the last accepted one and is below
    the limit, however many failures there were in total, and the next
    attempt is again accepted exactly when it gives the stored PIN. *)
Theorem success_resets_streak nc pins :
  _failed_attempts (_device nc) = 0 →
  0 < _max_attempts (_device nc) →
  every_window (_max_attempts (_device nc)) (is_pin (_device nc)) pins = true →
  (∀ pin nc1,
     (authenticate pin nc1).1 = Return (is_pin (_device nc1) pin) ∧
     (is_pin (_device nc1) pin = true →
        _failed_attempts (_device (authenticate pin nc1).2) = 0 ∧
        _slots (_device (authenticate pin nc1).2) = _slots (_device nc1))) ∧
  (∀ n, let nc' := KeySession.run (attempts (take n pins)) nc in
        _slots (_device nc') = _slots (_device nc) ∧
        _failed_attempts (_device nc')
          = streak (is_pin (_device nc)) (take n pins) ∧
        _failed_attempts (_device nc') < _max_attempts (_device nc) ∧
        ∀ pin, (authenticate pin nc').1 = Return (is_pin (_device nc) pin)).
Proof.
  intros Hzero Hmax Hwin. split.
  - intros pin nc1. split; [apply authenticate_outcome|].
    unfold is_pin. intros Hok%bool_decide_eq_true_1.
    by rewrite (authenticate_accept pin nc1).
  - intros n nc'.
    destruct (streak_below_limit (_pin (_device nc))
                (_max_attempts (_device nc)) pins nc n) as [Hslots Hbelow];
      try done.
    + lia.
    + rewrite Hzero, Nat.sub_0_r. intros Hlen.
      by apply (every_window_head _ _ _ Hwin).
    + split; [exact Hslots|]. split; [by apply counter_is_streak|].
      split; [exact Hbelow|]. intros pin.
      rewrite authenticate_outcome. unfold is_pin, nc'.
      by rewrite run_attempts_pin.
Qed.

Lemma success_resets_streak_witness :
  let pins := ["0000"; "1111"; "1234"; "2222"; "3333"; "1234"; "4444";
               "5555"; "1234"; "6666"; "7777"] in
  let nc' := KeySession.run (attempts pins) Examples.provisioned_key in
  (authenticate "1234" Examples.provisioned_key).1 = Return true ∧
  _slots (_device nc') = _slots (_device Examples.provisioned_key) ∧
  _failed_attempts (_device nc') = 2 ∧
  _failed_attempts (_device nc') < 3 ∧
  (authenticate "1234" nc').1 = Return true ∧
  (authenticate "7777" nc').1 = Return false.
Proof.
  intros pins nc'.
  destruct (success_resets_streak Examples.provisioned_key pins
              eq_refl ltac:(vm_compute; lia) eq_refl) as [Hcall Hrun].
  destruct (Hrun 11) as (Hslots & Hcount & Hbelow & Hnext).
  split; [exact (proj1 (Hcall "1234" Examples.provisioned_key))|].
  split; [exact Hslots|]. split; [exact Hcount|]. split; [exact Hbelow|].
  split; [exact (Hnext "1234")|exact (Hnext "7777")].
Defined.

End Streak.

(** ** The client: sessions and retrieval *)

Section Client.
Import AVP.
Implicit Types (c : AVPClient) (ws nm : string) (sid now : nat).

Lemma check_session_inv sid now c r c' :
  check_session sid now c = (r, c') →
  c' = c ∧
  (r = Raise (AVPError SessionExpiredError)
   ∨ ∃ s, sessions c !! sid = Some s ∧ now < expires_at s ∧
          r = Return (workspace s)).
Proof.
  unfold check_session. destruct (sessions c !! sid) as [s|] eqn:Hs.
  - destruct (now <? expires_at s) eqn:Hlt; intros [= <- <-]; split; auto.
    right. exists s. apply Nat.ltb_lt in Hlt. done.
  - intros [= <- <-]. auto.
Qed.

Lemma check_session_valid sid now c s :
  sessions c !! sid = Some s → now < expires_at s →
  check_session sid now c = (Return (workspace s), c).
Proof.
  intros Hs Hlt. unfold check_session.
  by rewrite Hs, (proj2 (Nat.ltb_lt _ _) Hlt).
Qed.

Lemma retrieve_frame sid nm now c : (retrieve sid nm now c).2 = c.
Proof.
  unfold retrieve. unfold_py.
  destruct (check_session sid now c) as [r c'] eqn:Hc.
  apply check_session_inv in Hc as [-> _].
  destruct r as [ws|e]; [|done]. by destruct (secrets c !! (ws, nm)).
Qed.

Lemma store_frame sid nm v lbl now c :
  same_sessions c (store sid nm v lbl now c).2.
Proof.
  unfold store. unfold_py.
  destruct (check_session sid now c) as [r c'] eqn:Hc.
  apply check_session_inv in Hc as [-> _].
  by destruct r as [ws|e].
Qed.

Lemma rotate_frame sid nm v now c :
  same_sessions c (rotate sid nm v now c).2.
Proof.
  unfold rotate. unfold_py.
  destruct (check_session sid now c) as [r c'] eqn:Hc.
  apply check_session_inv in Hc as [-> _].
  destruct r as [ws|e]; [|done]. by destruct (secrets c !! (ws, nm)).
Qed.

Lemma delete_frame sid nm now c :
  same_sessions c (delete sid nm now c).2.
Proof.
  unfold delete. unfold_py.
  destruct (check_session sid now c) as [r c'] eqn:Hc.
  apply check_session_inv in Hc as [-> _].
  destruct r as [ws|e]; [|done]. by destruct (secrets c !! (ws, nm)).
Qed.

Lemma list_secrets_frame sid now c : (list_secrets sid now c).2 = c.
Proof.
  unfold list_secrets. unfold_py.
  destruct (check_session sid now c) as [r c'] eqn:Hc.
  apply check_session_inv in Hc as [-> _].
  by destruct r as [ws|e].
Qed.

Lemma same_sessions_refl c : same_sessions c c.
Proof. done. Qed.

(** Retrieval through a valid session looks the name up in the
    session's workspace and nowhere else. *)
Lemma retrieve_valid sid nm now c s :
  sessions c !! sid = Some s → now < expires_at s →
  (retrieve sid nm now c).1 =
    match secrets c !! (workspace s, nm) with
    | Some x => Return x
    | None => Raise (AVPError NotFoundError)
    end.
Proof.
  intros Hs Hlt. unfold retrieve. unfold_py.
  rewrite (check_session_valid _ _ _ _ Hs Hlt).
  by destruct (secrets c !! (workspace s, nm)).
Qed.

Lemma retrieve_outcome sid nm now c s :
  sessions c !! sid = Some s →
  (retrieve sid nm now c).1 = Raise (AVPError SessionExpiredError)
  ∨ (retrieve sid nm now c).1 =
      match secrets c !! (workspace s, nm) with
      | Some x => Return x
      | None => Raise (AVPError NotFoundError)
      end.
Proof.
  intros Hs. destruct (decide (now < expires_at s)) as [Hlt|Hge].
  - right. by apply retrieve_valid.
  - left. unfold retrieve, check_session. unfold_py. rewrite Hs.
    by rewrite (proj2 (Nat.ltb_ge _ _)) by lia.
Qed.

End Client.

(** ** The credential manager: its session table *)

Section Manager.
Import CrewAI AVPCredentialManager ManagerRun.
Implicit Types (m : AVPCredentialManager.t) (ws nm : string) (sid now : nat).

Lemma get_session_cached now ws m sid :
  _sessions m !! ws = Some sid →
  _get_session now ws m = (Return sid, m).
Proof. intros H. unfold _get_session. unfold_py. by rewrite H. Qed.

Lemma get_session_fresh now ws m :
  _sessions m !! ws = None →
  _get_session now ws m =
    (Return (AVP.next_session (_client m)),
     mk (AVP.mkClient (AVP.secrets (_client m))
           (<[AVP.next_session (_client m) := fresh_session now ws m]>
              (AVP.sessions (_client m)))
           (S (AVP.next_session (_client m)))
           (AVP.session_ttl (_client m)))
        (<[ws := AVP.next_session (_client m)]> (_sessions m))
        (_audit_log m ++ [mkAuditEntry now ws "session_created" None])).
Proof.
  intros H. unfold _get_session, _log_access, on_client, AVP.authenticate.
  unfold_py. by rewrite H.
Qed.

(** [_get_session] always returns; what it leaves behind. *)
Lemma get_session_spec now ws m :
  ∃ sid m1,
    _get_session now ws m = (Return sid, m1) ∧
    _sessions m1 !! ws = Some sid ∧
    AVP.secrets (_client m1) = AVP.secrets (_client m) ∧
    _audit_log m1 = _audit_log m ++ session_entry now ws m ∧
    _sessions m1 =
      match _sessions m !! ws with
      | Some _ => _sessions m
      | None => <[ws := AVP.next_session (_client m)]> (_sessions m)
      end.
Proof.
  unfold session_entry. destruct (_sessions m !! ws) as [sid|] eqn:Hs.
  - exists sid, m. rewrite (get_session_cached _ _ _ _ Hs).
    by rewrite app_nil_r.
  - eexists _, _. rewrite (get_session_fresh _ _ _ Hs).
    split; [done|]. simpl. by rewrite lookup_insert_eq.
Qed.

Lemma get_session_consistent now ws m sid m1 :
  consistent m →
  _get_session now ws m = (Return sid, m1) →
  consistent m1 ∧
  (session_valid now ws m = true →
     ∃ s, AVP.sessions (_client m1) !! sid = Some s ∧
          AVP.workspace s = ws ∧ now < AVP.expires_at s) ∧
  ∃ s, AVP.sessions (_client m1) !! sid = Some s ∧ AVP.workspace s = ws.
Proof.
  intros (Hbound & Hbelow & Httl).
  destruct (_sessions m !! ws) as [sid0|] eqn:Hs.
  - rewrite (get_session_cached _ _ _ _ Hs). intros [= <- <-].
    split; [done|]. destruct (Hbound _ _ Hs) as (s & Hsid & Hws).
    split; [|eauto]. unfold session_valid. rewrite Hs, Hsid.
    intros Hlt%Nat.ltb_lt. eauto.
  - rewrite (get_session_fresh _ _ _ Hs). intros [= <- <-].
    split; [|split].
    + repeat split; simpl.
      * intros ws' sid'. destruct (decide (ws = ws')) as [<-|Hne].
        -- rewrite lookup_insert_eq. intros [= <-].
           rewrite lookup_insert_eq. eauto.
        -- rewrite lookup_insert_ne by done. intros Hc.
           destruct (Hbound _ _ Hc) as (s & Hsid & Hws).
           exists s. split; [|done].
           rewrite lookup_insert_ne; [done|].
           apply Hbelow in Hsid. lia.
      * intros sid' s.
        destruct (decide (AVP.next_session (_client m) = sid')) as [<-|Hne].
        -- lia.
        -- rewrite lookup_insert_ne by done. intros H%Hbelow. lia.
      * done.
    + intros _. simpl. rewrite lookup_insert_eq. eexists. split; [done|].
      simpl. split; [done|]. rewrite Httl. lia.
    + simpl. rewrite lookup_insert_eq. eauto.
Qed.

Lemma on_client_consistent {A} (f : Py.method AVP.AVPClient A) m :
  same_sessions (_client m) (f (_client m)).2 →
  consistent m → consistent (on_client f m).2.
Proof.
  intros (Hs & Hn & Ht) (Hbound & Hbelow & Httl).
  unfold on_client. destruct (f (_client m)) as [r c']. simpl in *.
  repeat split; simpl; rewrite ?Hs, ?Hn, ?Ht; done.
Qed.

Lemma exec_consistent now c m :
  consistent m → consistent (exec now c m).2.
Proof.
  intros Hm.
  destruct c as [ws nm|ws nm v lbl|ws nm v|ws|ws nm]; simpl;
    destruct (get_session_spec now ws m) as (sid & m1 & Hg & _);
    destruct (get_session_consistent _ _ _ _ _ Hm Hg) as (Hm1 & _).
  - unfold get. unfold_py. rewrite Hg.
    pose proof (on_client_consistent (AVP.retrieve sid nm now) m1) as H.
    destruct (on_client (AVP.retrieve sid nm now) m1) as [[r|e] m2]; simpl in *.
    + unfold _log_access. unfold_py. simpl.
      destruct (Py.decode_utf8 (AVP.value r)); simpl; (apply H; [|done]);
        rewrite retrieve_frame; apply same_sessions_refl.
    + apply H; [|done]. rewrite retrieve_frame. apply same_sessions_refl.
  - unfold set. unfold_py. rewrite Hg.
    pose proof (on_client_consistent
                  (AVP.store sid nm (Py.encode v) lbl now) m1) as H.
    destruct (on_client (AVP.store sid nm (Py.encode v) lbl now) m1)
      as [[r|e] m2];
      simpl in *; apply H; try done; apply store_frame.
  - unfold rotate. unfold_py. rewrite Hg.
    pose proof (on_client_consistent
                  (AVP.rotate sid nm (Py.encode v) now) m1) as H.
    destruct (on_client (AVP.rotate sid nm (Py.encode v) now) m1)
      as [[r|e] m2];
      simpl in *; apply H; try done; apply rotate_frame.
  - unfold list_credentials. unfold_py. rewrite Hg.
    pose proof (on_client_consistent (AVP.list_secrets sid now) m1) as H.
    destruct (on_client (AVP.list_secrets sid now) m1) as [[r|e] m2];
      simpl in *; apply H; try done;
      rewrite list_secrets_frame; apply same_sessions_refl.
  - unfold_py. rewrite Hg.
    pose proof (on_client_consistent (AVP.delete sid nm now) m1) as H.
    destruct (on_client (AVP.delete sid nm now) m1) as [[r|e] m2];
      simpl in *; apply H; try done; apply delete_frame.
Qed.

Lemma run_consistent calls : ∀ m,
  consistent m → consistent (ManagerRun.run calls m).2.
Proof.
  induction calls as [|[now c] calls IH]; intros m Hm; [done|].
  simpl. pose proof (exec_consistent now c m Hm) as H1.
  destruct (exec now c m) as [ok m1]. simpl in H1.
  specialize (IH m1 H1). by destruct (ManagerRun.run calls m1).
Qed.

Lemma init_consistent vault : consistent (init (AVP.open vault)).
Proof. repeat split; simpl; intros ??; by rewrite lookup_empty. Qed.

(** A session that is no longer valid is a cached one: the call opens
    nothing and the client is the one it was. *)
Lemma get_session_expired now ws m sid m1 :
  session_valid now ws m = false →
  _get_session now ws m = (Return sid, m1) →
  m1 = m ∧ _sessions m !! ws = Some sid ∧
  match AVP.sessions (_client m) !! sid with
  | Some s => (now <? AVP.expires_at s) = false
  | None => True
  end.
Proof.
  unfold session_valid. destruct (_sessions m !! ws) as [sid0|] eqn:Hs; [|done].
  rewrite (get_session_cached _ _ _ _ Hs). intros Hv [= <- <-].
  repeat split. by destruct (AVP.sessions (_client m) !! sid0).
Qed.

Lemma get_outcome now ws nm m sid m1 :
  _get_session now ws m = (Return sid, m1) →
  (get now ws nm m).1 =
    match (AVP.retrieve sid nm now (_client m1)).1 with
    | Return r => Py.decode_utf8 (AVP.value r)
    | Raise e => Raise e
    end.
Proof.
  intros Hg. unfold get, on_client, _log_access. unfold_py. rewrite Hg.
  by destruct (AVP.retrieve sid nm now (_client m1)) as [[r|e] c'].
Qed.

End Manager.

(** ** Workspace isolation *)

Section Isolation.
Import CrewAI AVPCredentialManager ManagerRun.
Implicit Types (m : AVPCredentialManager.t) (ws nm : string) (sid now : nat).

(** C2.  In any state the manager can reach over any vault, if the name
    [N] is stored under workspace [W1] and under no other workspace,
    then for [W2 ≠ W1] the call [get(W2, N)] never returns a value: it
    fails with [NotFoundError] whenever the session it goes through is
    valid (a cached session of [W2] that has not expired, or the fresh
    one opened by the call), and with [SessionExpiredError] otherwise. *)
Theorem workspace_isolation vault calls now W1 W2 N :
  let m := (ManagerRun.run calls (init (AVP.open vault))).2 in
  W1 ≠ W2 →
  is_Some (AVP.secrets (_client m) !! (W1, N)) →
  (∀ W, W ≠ W1 → AVP.secrets (_client m) !! (W, N) = None) →
  (∀ v, (get now W2 N m).1 ≠ Return v) ∧
  (session_valid now W2 m = true →
     (get now W2 N m).1 = Raise (AVPError NotFoundError)) ∧
  (session_valid now W2 m = false →
     (get now W2 N m).1 = Raise (AVPError SessionExpiredError)).
Proof.
  intros m Hne _ Honly.
  assert (consistent m) as Hm by apply run_consistent, init_consistent.
  destruct (get_session_spec now W2 m) as (sid & m1 & Hg & _ & Hsec & _).
  destruct (get_session_consistent _ _ _ _ _ Hm Hg)
    as (_ & Hvalid & s & Hs & Hws).
  assert (AVP.secrets (_client m1) !! (W2, N) = None) as Habsent.
  { rewrite Hsec. apply Honly. congruence. }
  rewrite (get_outcome _ _ _ _ _ _ Hg). split; [|split].
  - intros v.
    destruct (retrieve_outcome sid N now _ _ Hs) as [-> | ->]; [done|].
    by rewrite Hws, Habsent.
  - intros (s' & Hs' & Hws' & Hlt)%Hvalid.
    rewrite (retrieve_valid _ _ _ _ _ Hs' Hlt). by rewrite Hws', Habsent.
  - intros Hexpired.
    destruct (get_session_expired _ _ _ _ _ Hexpired Hg) as (Hm1 & _ & Hold).
    rewrite Hm1. unfold AVP.retrieve, AVP.check_session. unfold_py.
    destruct (AVP.sessions (_client m) !! sid) as [s0|]; [|done].
    by rewrite Hold.
Qed.

Lemma workspace_isolation_witness :
  (get 5 "researcher" "anthropic_api_key" Examples.research_vault).1
    = Return "sk-ant-test" ∧
  (∀ v, (get 5 "writer" "anthropic_api_key" Examples.research_vault).1
        ≠ Return v) ∧
  (get 5 "writer" "anthropic_api_key" Examples.research_vault).1
    = Raise (AVPError NotFoundError).
Proof.
  split; [reflexivity|].
  destruct (workspace_isolation ∅
              [(0, Set_ "researcher" "anthropic_api_key" "sk-ant-test" None)]
              5 "researcher" "writer" "anthropic_api_key")
    as (Hnever & Hmiss & _).
  - discriminate.
  - vm_compute. eauto.
  - intros W HW.
    replace (AVP.secrets (_client _))
      with (<[("researcher", "anthropic_api_key") :=
                AVP.mkSecret "anthropic_api_key" (Py.encode "sk-ant-test")
                             1 ∅ 0 0]>
              (∅ : gmap (string * string) AVP.Secret))
      by (vm_compute; reflexivity).
    rewrite lookup_insert_ne by congruence. apply lookup_empty.
  - split; [exact Hnever|]. apply Hmiss. reflexivity.
Defined.

End Isolation.

(** ** The audit log of the manager *)

Section Audit.
Import CrewAI AVPCredentialManager ManagerRun.
Implicit Types (m : AVPCredentialManager.t) (ws nm : string) (sid now : nat).

(** C3, as stated, fails: a [get] whose backend call raises leaves the
    log as it was, and so does a [list_credentials] that returns. *)
Lemma failed_retrieve_leaves_no_entry :
  (get 5 "researcher" "missing_key" Examples.research_vault).1
    = Raise (AVPError NotFoundError) ∧
  get_audit_log (get 5 "researcher" "missing_key" Examples.research_vault).2
    = get_audit_log Examples.research_vault ∧
  (list_credentials 6 "researcher" Examples.research_vault).1
    = Return ["anthropic_api_key"] ∧
  get_audit_log (list_credentials 6 "researcher" Examples.research_vault).2
    = get_audit_log Examples.research_vault.
Proof. repeat split; reflexivity. Qed.

(** One call of any kind: the entries it appends, the session it
    caches, and that it returns only if its client call did. *)
Lemma exec_step now c m :
  _audit_log (exec now c m).2 =
    _audit_log m ++ session_entry now (call_workspace c) m ++
    (if backend_returns now c m then option_list (op_entry now c) else []) ∧
  _sessions (exec now c m).2 =
    match _sessions m !! call_workspace c with
    | Some _ => _sessions m
    | None =>
        <[call_workspace c := AVP.next_session (_client m)]> (_sessions m)
    end ∧
  ((exec now c m).1 = true → backend_returns now c m = true).
Proof.
  destruct c as [ws nm|ws nm v lbl|ws nm v|ws|ws nm]; simpl;
    destruct (get_session_spec now ws m)
      as (sid & m1 & Hg & _ & _ & Hlog & Hses).
  - unfold get, on_client, _log_access. unfold_py. rewrite Hg.
    destruct (AVP.retrieve sid nm now (_client m1)) as [[r|e] c']; simpl;
      [destruct (Py.decode_utf8 (AVP.value r)); simpl|];
      by rewrite Hlog, Hses, <- ?app_assoc, ?app_nil_r.
  - unfold set, on_client, _log_access. unfold_py. rewrite Hg.
    destruct (AVP.store sid nm (Py.encode v) lbl now (_client m1))
      as [[r|e] c']; simpl;
      by rewrite Hlog, Hses, <- ?app_assoc, ?app_nil_r.
  - unfold rotate, on_client, _log_access. unfold_py. rewrite Hg.
    destruct (AVP.rotate sid nm (Py.encode v) now (_client m1))
      as [[r|e] c']; simpl;
      by rewrite Hlog, Hses, <- ?app_assoc, ?app_nil_r.
  - unfold list_credentials, on_client. unfold_py. rewrite Hg.
    destruct (AVP.list_secrets sid now (_client m1)) as [[r|e] c']; simpl;
      by rewrite Hlog, Hses, ?app_nil_r.
  - unfold on_client. unfold_py. rewrite Hg.
    destruct (AVP.delete sid nm now (_client m1)) as [[r|e] c']; simpl;
      by rewrite Hlog, Hses, ?app_nil_r.
Qed.

Lemma session_entry_known now ws m :
  session_entry now ws m =
    if decide (ws ∈ dom (_sessions m)) then []
    else [mkAuditEntry now ws "session_created" None].
Proof.
  unfold session_entry. destruct (_sessions m !! ws) as [sid|] eqn:E.
  - rewrite decide_True; [done|]. apply elem_of_dom. eauto.
  - rewrite decide_False; [done|]. by apply not_elem_of_dom.
Qed.

(** After a call its workspace has a session, and no other is added. *)
Lemma exec_known now c m :
  dom (_sessions (exec now c m).2) = {[call_workspace c]} ∪ dom (_sessions m) ∧
  size (_sessions (exec now c m).2)
  = size (_sessions m) + length (session_entry now (call_workspace c) m).
Proof.
  destruct (exec_step now c m) as (_ & -> & _). unfold session_entry.
  destruct (_sessions m !! call_workspace c) as [sid|] eqn:E.
  - split; [|simpl; lia]. symmetry. apply subseteq_union_1_L.
    apply singleton_subseteq_l, elem_of_dom. eauto.
  - split; [by rewrite dom_insert_L|].
    rewrite map_size_insert_None by done. simpl. lia.
Qed.

(** The log after a run is the log before it followed by the trail. *)
Lemma run_trail calls : ∀ m,
  _audit_log (ManagerRun.run calls m).2 =
    _audit_log m ++ trail (dom (_sessions m)) calls (backend_run calls m).
Proof.
  induction calls as [|[now c] calls IH]; intros m.
  { simpl. by rewrite app_nil_r. }
  simpl. destruct (exec_step now c m) as (Hlog & _ & _).
  destruct (exec_known now c m) as [Hdom _].
  specialize (IH (exec now c m).2).
  destruct (exec now c m) as [ok m1]. simpl in *.
  destruct (ManagerRun.run calls m1) as [oks m2]. simpl in *.
  rewrite IH, Hlog, Hdom, session_entry_known.
  by rewrite <- !app_assoc.
Qed.

Lemma run_returns_after_backend calls : ∀ m,
  Forall2 (λ ok b : bool, ok = true → b = true)
          (ManagerRun.run calls m).1 (backend_run calls m).
Proof.
  induction calls as [|[now c] calls IH]; intros m; [constructor|].
  simpl. destruct (exec_step now c m) as (_ & _ & Hok).
  specialize (IH (exec now c m).2).
  destruct (exec now c m) as [ok m1]. simpl in *.
  destruct (ManagerRun.run calls m1) as [oks m2]. simpl in *.
  by constructor.
Qed.

Lemma length_trail_all_returned calls : ∀ m,
  Forall (λ tc, is_credential_op tc.2 = true) calls →
  Forall (λ b, b = true) (backend_run calls m) →
  length (trail (dom (_sessions m)) calls (backend_run calls m))
    + size (_sessions m)
  = length calls + size (_sessions (ManagerRun.run calls m).2) ∧
  size (_sessions m) ≤ size (_sessions (ManagerRun.run calls m).2).
Proof.
  induction calls as [|[now c] calls IH]; intros m Hc Hb; [done|].
  apply Forall_cons in Hc as [Hop Hc]. simpl in Hb.
  apply Forall_cons in Hb as [Hb0 Hb]. simpl.
  destruct (exec_known now c m) as [Hdom Hsize].
  specialize (IH (exec now c m).2 Hc Hb).
  destruct (exec now c m) as [ok m1]. simpl in *.
  destruct (ManagerRun.run calls m1) as [oks m2]. simpl in *.
  rewrite Hb0, <- Hdom, !length_app, <- session_entry_known.
  assert (length (option_list (op_entry now c)) = 1) as ->
    by (by destruct c).
  lia.
Qed.

(** A [get] writes its entry before it decodes the value: on bytes
    that are not UTF-8 it raises with the entry already in the log. *)
Lemma get_logs_before_decoding :
  (get 5 "researcher" "anthropic_api_key" Examples.binary_vault).1
    = Raise UnicodeDecodeError ∧
  get_audit_log
    (get 5 "researcher" "anthropic_api_key" Examples.binary_vault).2
    = get_audit_log Examples.binary_vault ++
      [mkAuditEntry 5 "researcher" "retrieve" (Some "anthropic_api_key")].
Proof. split; reflexivity. Qed.

(** C3, amended.  Over any sequence of [get], [set] and [rotate] calls
    of the manager the log grows by appending only, and what is
    appended is, call by call and in call order: a [session_created]
    entry if the call opened the session of its workspace, and after it
    exactly one entry for the operation if the client call returned
    (none if the client call raised; a [get] whose value then fails to
    decode has logged all the same).  A call returns only if its client
    call did, so N calls that all return leave exactly N entries plus
    one per session opened. *)
Theorem credential_ops_audit_trail calls m :
  Forall (λ tc, is_credential_op tc.2 = true) calls →
  get_audit_log (ManagerRun.run calls m).2
    = get_audit_log m ++ trail (dom (_sessions m)) calls (backend_run calls m) ∧
  Forall2 (λ ok b : bool, ok = true → b = true)
          (ManagerRun.run calls m).1 (backend_run calls m) ∧
  (Forall (λ ok, ok = true) (ManagerRun.run calls m).1 →
     length (trail (dom (_sessions m)) calls (backend_run calls m))
     = length calls
       + (size (_sessions (ManagerRun.run calls m).2) - size (_sessions m))).
Proof.
  intros Hc. split; [apply run_trail|].
  split; [apply run_returns_after_backend|].
  intros Hoks.
  assert (Forall (λ b, b = true) (backend_run calls m)) as Hb.
  { pose proof (run_returns_after_backend calls m) as H2.
    induction H2 as [|ok b oks bs Hob _ IH]; [constructor|].
    apply Forall_cons in Hoks as [Hok Hoks]. constructor; auto. }
  destruct (length_trail_all_returned calls m Hc Hb). lia.
Qed.

Lemma credential_ops_audit_trail_witness :
  (ManagerRun.run Examples.audit_returning_calls Examples.research_vault).1
    = [true; true; true; true] ∧
  get_audit_log
    (ManagerRun.run Examples.audit_returning_calls Examples.research_vault).2
    = get_audit_log Examples.research_vault ++
      [mkAuditEntry 1 "researcher" "retrieve" (Some "anthropic_api_key");
       mkAuditEntry 2 "researcher" "store" (Some "temp_token");
       mkAuditEntry 3 "researcher" "rotate" (Some "temp_token");
       mkAuditEntry 4 "writer" "session_created" None;
       mkAuditEntry 4 "writer" "store" (Some "style_guide_key")] ∧
  length (trail (dom (_sessions Examples.research_vault))
            Examples.audit_returning_calls
            (backend_run Examples.audit_returning_calls
               Examples.research_vault))
    = 4 + (2 - 1).
Proof.
  split; [reflexivity|].
  destruct (credential_ops_audit_trail
              Examples.audit_returning_calls Examples.research_vault)
    as (Hlog & _ & Hcount).
  { repeat constructor. }
  split.
  - rewrite Hlog. vm_compute. reflexivity.
  - rewrite Hcount; [reflexivity|]. repeat constructor.
Defined.

End Audit.

(** ** The LangChain provider *)

Section Provider.
Import LangChain.AVPCredentialProvider.
Implicit Types (p : LangChain.AVPCredentialProvider.t) (nm : string)
  (now : nat).

Lemma provider_get_outcome now nm p :
  (get now nm p).1 =
    match (AVP.retrieve (_session_id p) nm now (_client p)).1 with
    | Return r =>
        match Py.decode_utf8 (AVP.value r) with
        | Return v => Return v
        | Raise _ => Raise KeyError
        end
    | Raise _ => Raise KeyError
    end.
Proof.
  unfold get, on_client. unfold_py.
  destruct (AVP.retrieve (_session_id p) nm now (_client p)) as [[r|e] c'];
    simpl; [|done].
  by destruct (Py.decode_utf8 (AVP.value r)).
Qed.

(** C8, as stated, fails on the provider: a missing credential
    ([NotFoundError] from the client) and an expired session
    ([SessionExpiredError] from the client) both reach the caller as the
    same [KeyError]. *)
Lemma provider_conflates_failures :
  (AVP.retrieve (_session_id Examples.langchain_provider) "missing" 10
     (_client Examples.langchain_provider)).1
    = Raise (AVPError NotFoundError) ∧
  (AVP.retrieve (_session_id Examples.langchain_provider)
     "anthropic_api_key" 4000 (_client Examples.langchain_provider)).1
    = Raise (AVPError SessionExpiredError) ∧
  (get 10 "anthropic_api_key" Examples.langchain_provider).1
    = Return "sk-ant-test" ∧
  (get 10 "missing" Examples.langchain_provider).1 = Raise KeyError ∧
  (get 4000 "anthropic_api_key" Examples.langchain_provider).1
    = Raise KeyError.
Proof. repeat split; reflexivity. Qed.

(** C8, amended.  Every failure of the provider's [get] reaches the
    caller as [KeyError], whatever kind of failure the client raised:
    the kind of the underlying failure is not kept in the type of the
    error. *)
Theorem provider_get_raises_KeyError now nm p :
  (∀ e, (AVP.retrieve (_session_id p) nm now (_client p)).1 = Raise e →
        (get now nm p).1 = Raise KeyError) ∧
  (∀ e, (get now nm p).1 = Raise e → e = KeyError).
Proof.
  rewrite provider_get_outcome.
  destruct (AVP.retrieve _ _ _ _).1 as [r|e0];
    [destruct (Py.decode_utf8 (AVP.value r)) as [v|e1]|];
    split; intros e [= ]; done.
Qed.

Lemma provider_get_raises_KeyError_witness :
  (get 4000 "anthropic_api_key" Examples.langchain_provider).1
    = Raise KeyError.
Proof.
  apply (proj1 (provider_get_raises_KeyError 4000 "anthropic_api_key"
                  Examples.langchain_provider)
               (AVPError SessionExpiredError)).
  reflexivity.
Defined.

End Provider.

(** * Further properties of the wrappers *)

(** ** More on the key: capacity *)

Section Capacity.
Import Hardware NexusClawSimulator NexusClaw KeySession.
Implicit Types (nc : NexusClaw.t) (pin name value : string).

Lemma exec_within_capacity c nc :
  size (_slots (_device nc)) ≤ _max_slots (_device nc) →
  size (_slots (_device (exec c nc))) ≤ _max_slots (_device (exec c nc)).
Proof.
  intros Hle. destruct (exec_limits c nc) as [_ ->].
  destruct c; simpl; try done.
  - unfold setup, on_device, setup_pin.
    by destruct (Py.len pin <? 4).
  - destruct (decide (_pin (_device nc) = Some pin)) as [Hp|Hp].
    + by rewrite (authenticate_accept _ _ Hp).
    + rewrite (authenticate_reject _ _ Hp). simpl.
      destruct (_max_attempts (_device nc) <=? _failed_attempts (_device nc) + 1);
        simpl; [|done].
      rewrite map_size_empty. lia.
  - unfold_guarded. unfold NexusClawSimulator.store.
    destruct (_authenticated nc); simpl; [|done].
    destruct (_max_slots (_device nc) <=? size (_slots (_device nc))) eqn:E;
      simpl; [done|].
    apply Nat.leb_gt in E. rewrite map_size_insert.
    destruct (_slots (_device nc) !! name); simpl; lia.
  - unfold_guarded. unfold NexusClawSimulator.retrieve.
    destruct (_authenticated nc); simpl; [|done].
    by destruct (_slots (_device nc) !! name).
  - unfold_guarded. unfold NexusClawSimulator.delete.
    destruct (_authenticated nc); simpl; [|done].
    destruct (_slots (_device nc) !! name) eqn:E; simpl; [|done].
    rewrite map_size_delete, E. simpl. lia.
  - unfold_guarded. by destruct (_authenticated nc).
Qed.

Lemma run_within_capacity calls : ∀ nc,
  size (_slots (_device nc)) ≤ _max_slots (_device nc) →
  size (_slots (_device (KeySession.run calls nc)))
  ≤ _max_slots (_device (KeySession.run calls nc)).
Proof.
  induction calls as [|c calls IH]; intros nc Hle; [done|].
  simpl. apply IH. by apply exec_within_capacity.
Qed.

(** X1.  Whatever calls are made on a new key, [get_info] never reports
    more slots in use than the 32 the device has: [store] refuses at
    the limit and nothing else adds a slot. *)
Theorem slots_used_within_total calls :
  let info := NexusClaw.get_info (KeySession.run calls NexusClaw.init) in
  slots_used info ≤ slots_total info ∧ slots_total info = 32.
Proof.
  simpl. split.
  - apply run_within_capacity. simpl. rewrite map_size_empty. lia.
  - apply run_init_limits.
Qed.
End Capacity.

(** ** More on the key: slots *)

Section Slots.
Import Hardware NexusClawSimulator NexusClaw KeySession.
Implicit Types (nc : NexusClaw.t) (pin name value : string).

(** The guarded calls on an unlocked key are the calls of the device. *)
Lemma unlocked_store nc name value :
  _authenticated nc = true →
  NexusClaw.store name value nc =
    on_device (NexusClawSimulator.store name (Py.encode value)) nc.
Proof.
  intros H. unfold_guarded. rewrite H. simpl. by rewrite H.
Qed.

Lemma unlocked_retrieve nc name :
  _authenticated nc = true →
  NexusClaw.retrieve name nc =
    match _slots (_device nc) !! name with
    | Some v => (Return (Py.decode v), nc)
    | None => (Raise KeyError, nc)
    end.
Proof.
  intros H. unfold_guarded. unfold NexusClawSimulator.retrieve.
  rewrite H. simpl. destruct nc as [sim d a]; simpl in *; subst a.
  by destruct (_slots d !! name).
Qed.

Lemma unlocked_delete nc name :
  _authenticated nc = true →
  NexusClaw.delete name nc =
    match _slots (_device nc) !! name with
    | Some _ =>
        (Return true,
         NexusClaw.mk (_simulation nc)
           (set_slots (base.delete name (_slots (_device nc))) (_device nc))
           true)
    | None => (Return false, nc)
    end.
Proof.
  intros H. unfold_guarded. unfold NexusClawSimulator.delete.
  rewrite H. simpl. destruct nc as [sim d a]; simpl in *; subst a.
  by destruct (_slots d !! name).
Qed.

Lemma unlocked_list nc :
  _authenticated nc = true →
  NexusClaw.list nc = (Return (map_to_list (_slots (_device nc))).*1, nc).
Proof.
  intros H. unfold_guarded. unfold NexusClawSimulator.list_slots.
  rewrite H. simpl. destruct nc as [sim d a]; simpl in *; by subst a.
Qed.

(** X2.  On an unlocked key, [delete(name)] returns [True] exactly when
    the slot existed.  Afterwards [retrieve(name)] raises [KeyError],
    every other slot is as it was, and a second [delete(name)] returns
    [False]. *)
Theorem delete_removes_one_slot nc name :
  _authenticated nc = true →
  ∃ nc',
    NexusClaw.delete name nc
      = (Return (bool_decide (is_Some (_slots (_device nc) !! name))), nc') ∧
    NexusClaw.retrieve name nc' = (Raise KeyError, nc') ∧
    (∀ other, other ≠ name →
       _slots (_device nc') !! other = _slots (_device nc) !! other) ∧
    NexusClaw.delete name nc' = (Return false, nc').
Proof.
  intros Hauth. rewrite (unlocked_delete _ _ Hauth).
  destruct (_slots (_device nc) !! name) as [v|] eqn:Hv.
  - eexists. split; [by rewrite bool_decide_eq_true_2|].
    rewrite unlocked_retrieve, unlocked_delete by done. simpl.
    rewrite lookup_delete_eq. repeat split.
    intros other Hne. by rewrite lookup_delete_ne.
  - exists nc. split.
    { rewrite bool_decide_eq_false_2; [done|]. by intros [? [=]]. }
    rewrite unlocked_retrieve, unlocked_delete by done. by rewrite Hv.
Qed.

Lemma delete_removes_one_slot_witness :
  ∃ nc',
    NexusClaw.delete "api_key" Examples.provisioned_key = (Return true, nc') ∧
    NexusClaw.retrieve "api_key" nc' = (Raise KeyError, nc') ∧
    (∀ other, other ≠ "api_key" →
       _slots (_device nc') !! other
       = _slots (_device Examples.provisioned_key) !! other) ∧
    NexusClaw.delete "api_key" nc' = (Return false, nc').
Proof.
  apply (delete_removes_one_slot Examples.provisioned_key "api_key").
  reflexivity.
Defined.

(** X3.  On an unlocked key with every slot in use, [store] of a new
    name raises [ValueError]; after [delete] of an existing slot the
    same [store] returns [True] and the value can be read back. *)
Theorem delete_frees_a_slot nc name new value :
  _authenticated nc = true →
  size (_slots (_device nc)) = _max_slots (_device nc) →
  is_Some (_slots (_device nc) !! name) →
  ∃ nc1 nc2,
    NexusClaw.store new value nc = (Raise ValueError, nc) ∧
    NexusClaw.delete name nc = (Return true, nc1) ∧
    NexusClaw.store new value nc1 = (Return true, nc2) ∧
    NexusClaw.retrieve new nc2 = (Return value, nc2).
Proof.
  intros Hauth Hfull [v Hv].
  assert (0 < size (_slots (_device nc))) as Hpos.
  { destruct (size (_slots (_device nc))) eqn:E; [|lia].
    apply map_size_empty_inv in E. rewrite E, lookup_empty in Hv. done. }
  exists (NexusClaw.mk (_simulation nc)
            (set_slots (base.delete name (_slots (_device nc))) (_device nc))
            true).
  eexists. split; [|split; [|split]].
  - rewrite (unlocked_store _ _ _ Hauth).
    unfold on_device, NexusClawSimulator.store.
    rewrite (proj2 (Nat.leb_le _ _)) by lia.
    destruct nc as [? ? a]; simpl in *; by subst a.
  - by rewrite (unlocked_delete _ _ Hauth), Hv.
  - rewrite unlocked_store by done.
    unfold on_device, NexusClawSimulator.store. simpl.
    rewrite map_size_delete, Hv. simpl.
    rewrite (proj2 (Nat.leb_gt _ _)) by lia. done.
  - rewrite unlocked_retrieve by done. simpl.
    by rewrite lookup_insert_eq, decode_encode.
Qed.

Lemma delete_frees_a_slot_witness :
  ∃ nc1 nc2,
    NexusClaw.store "one_more" "v" Examples.full_key
      = (Raise ValueError, Examples.full_key) ∧
    NexusClaw.delete "A" Examples.full_key = (Return true, nc1) ∧
    NexusClaw.store "one_more" "v" nc1 = (Return true, nc2) ∧
    NexusClaw.retrieve "one_more" nc2 = (Return "v", nc2).
Proof.
  apply (delete_frees_a_slot Examples.full_key "A" "one_more" "v").
  - reflexivity.
  - vm_compute. reflexivity.
  - vm_compute. eauto.
Defined.

(** X4.  A [store] that returns writes exactly one slot: the named
    slot holds the bytes of the value, every other slot is as it was,
    the slot count grows by one if the name was new and stays the same
    if it was overwritten, and PIN and failed-attempt counter are
    untouched. *)
Theorem store_touches_one_slot nc name value nc' :
  NexusClaw.store name value nc = (Return true, nc') →
  _slots (_device nc') !! name = Some (Py.encode value) ∧
  (∀ other, other ≠ name →
     _slots (_device nc') !! other = _slots (_device nc) !! other) ∧
  size (_slots (_device nc'))
    = match _slots (_device nc) !! name with
      | Some _ => size (_slots (_device nc))
      | None => S (size (_slots (_device nc)))
      end ∧
  _pin (_device nc') = _pin (_device nc) ∧
  _failed_attempts (_device nc') = _failed_attempts (_device nc) ∧
  _authenticated nc' = true.
Proof.
  destruct (_authenticated nc) eqn:Hauth.
  - rewrite (unlocked_store _ _ _ Hauth).
    unfold on_device, NexusClawSimulator.store.
    destruct (_max_slots (_device nc) <=? size (_slots (_device nc)));
      intros [= <-]. simpl.
    rewrite lookup_insert_eq, map_size_insert.
    repeat split; try done.
    + intros other Hne. by rewrite lookup_insert_ne.
    + by destruct (_slots (_device nc) !! name).
  - unfold_guarded. rewrite Hauth. intros [=].
Qed.

Lemma store_touches_one_slot_witness :
  let nc' := (NexusClaw.store "api_key" "sk-new" Examples.provisioned_key).2 in
  _slots (_device nc') !! "api_key" = Some (Py.encode "sk-new") ∧
  _slots (_device nc') !! "other" = None ∧
  size (_slots (_device nc')) = size (_slots (_device Examples.provisioned_key)).
Proof.
  intros nc'.
  destruct (store_touches_one_slot Examples.provisioned_key
              "api_key" "sk-new" nc') as (Hv & Hother & Hsize & _).
  - reflexivity.
  - split; [exact Hv|]. split; [|exact Hsize].
    rewrite Hother by discriminate. reflexivity.
Defined.
End Slots.

(** ** More on the key: listing and set-up *)

Section Listing.
Import Hardware NexusClawSimulator NexusClaw KeySession.
Implicit Types (nc : NexusClaw.t) (pin name value : string).

(** X5.  On an unlocked key, [list()] returns each stored name exactly
    once, as many names as [get_info] counts slots in use, and leaves
    the key unchanged; [retrieve] returns the stored value for the names
    in the list and raises [KeyError], changing nothing, for every other
    name. *)
Theorem list_names_the_readable_slots nc :
  _authenticated nc = true →
  ∃ names,
    NexusClaw.list nc = (Return names, nc) ∧
    NoDup names ∧
    length names = slots_used (NexusClaw.get_info nc) ∧
    ∀ name,
      (name ∈ names →
         ∃ v, _slots (_device nc) !! name = Some v ∧
              NexusClaw.retrieve name nc = (Return (Py.decode v), nc)) ∧
      (name ∉ names → NexusClaw.retrieve name nc = (Raise KeyError, nc)).
Proof.
  intros Hauth. eexists. split; [by apply unlocked_list|].
  split; [apply NoDup_fst_map_to_list|].
  split; [by rewrite length_fmap, length_map_to_list|].
  intros name. rewrite (unlocked_retrieve _ _ Hauth). split.
  - intros ([n v] & -> & Hin%elem_of_map_to_list)%list_elem_of_fmap.
    simpl in *. exists v. by rewrite Hin.
  - intros Hnot. destruct (_slots (_device nc) !! name) as [v|] eqn:Hv; [|done].
    destruct Hnot. apply list_elem_of_fmap. exists (name, v).
    split; [done|]. by apply elem_of_map_to_list.
Qed.

Lemma list_names_the_readable_slots_witness :
  ∃ names,
    NexusClaw.list Examples.provisioned_key
      = (Return names, Examples.provisioned_key) ∧
    NoDup names ∧
    length names = slots_used (NexusClaw.get_info Examples.provisioned_key) ∧
    ∀ name,
      (name ∈ names →
         ∃ v, _slots (_device Examples.provisioned_key) !! name = Some v ∧
              NexusClaw.retrieve name Examples.provisioned_key
              = (Return (Py.decode v), Examples.provisioned_key)) ∧
      (name ∉ names →
         NexusClaw.retrieve name Examples.provisioned_key
         = (Raise KeyError, Examples.provisioned_key)).
Proof.
  apply (list_names_the_readable_slots Examples.provisioned_key).
  reflexivity.
Defined.
End Listing.

Section Setup.
Import Hardware NexusClawSimulator NexusClaw KeySession.
Implicit Types (nc : NexusClaw.t) (pin name value : string).

Lemma exec_without_pin c nc :
  sets_pin c = false →
  _pin (_device nc) = None → _authenticated nc = false →
  _slots (_device nc) = ∅ →
  _pin (_device (exec c nc)) = None ∧ _authenticated (exec c nc) = false ∧
  _slots (_device (exec c nc)) = ∅.
Proof.
  intros Hc Hpin Hauth Hslots. destruct c; simpl; try done.
  - unfold setup, on_device, setup_pin.
    destruct (Py.len pin <? 4) eqn:E; [done|].
    apply Nat.ltb_ge in E. unfold sets_pin in Hc.
    apply Nat.leb_gt in Hc. lia.
  - rewrite authenticate_reject by (rewrite Hpin; done). simpl.
    by destruct (_max_attempts (_device nc) <=? _failed_attempts (_device nc) + 1).
  - by destruct (locked_refuses nc name value Hauth) as (-> & _).
  - by destruct (locked_refuses nc name "" Hauth) as (_ & -> & _).
  - by destruct (locked_refuses nc name "" Hauth) as (_ & _ & ->).
  - unfold_guarded. by rewrite Hauth.
Qed.

(** X6.  A new key cannot be unlocked before a PIN is set: as long as
    no [setup] with a PIN of at least 4 characters was among the calls,
    the key is locked and empty, every [authenticate] returns [False]
    whatever PIN is tried, and [store] raises [PermissionError]. *)
Theorem no_unlock_before_setup calls :
  existsb sets_pin calls = false →
  let nc := KeySession.run calls NexusClaw.init in
  _authenticated nc = false ∧
  _slots (_device nc) = ∅ ∧
  (∀ pin, (authenticate pin nc).1 = Return false) ∧
  (∀ name value,
     NexusClaw.store name value nc = (Raise PermissionError, nc)).
Proof.
  intros Hnone.
  assert (∀ nc0, _pin (_device nc0) = None → _authenticated nc0 = false →
                 _slots (_device nc0) = ∅ →
                 _pin (_device (KeySession.run calls nc0)) = None ∧
                 _authenticated (KeySession.run calls nc0) = false ∧
                 _slots (_device (KeySession.run calls nc0)) = ∅) as Hrun.
  { induction calls as [|c calls IH]; intros nc0 H1 H2 H3; [done|].
    simpl in Hnone. apply orb_false_iff in Hnone as [Hc Hrest].
    destruct (exec_without_pin c nc0 Hc H1 H2 H3) as (? & ? & ?).
    simpl. by apply IH. }
  destruct (Hrun NexusClaw.init) as (Hpin & Hauth & Hslots); try done.
  simpl. repeat split; try done.
  - intros pin. by rewrite authenticate_reject by (rewrite Hpin; done).
  - intros name value. by destruct (locked_refuses _ name value Hauth) as (-> & _).
Qed.

Lemma no_unlock_before_setup_witness :
  let nc := KeySession.run
              [Connect; Setup "123"; Authenticate "123"; Store "k" "v"]
              NexusClaw.init in
  _authenticated nc = false ∧
  _slots (_device nc) = ∅ ∧
  (∀ pin, (authenticate pin nc).1 = Return false) ∧
  (∀ name value,
     NexusClaw.store name value nc = (Raise PermissionError, nc)).
Proof.
  apply (no_unlock_before_setup
           [Connect; Setup "123"; Authenticate "123"; Store "k" "v"]).
  reflexivity.
Defined.

(** X7.  [setup] is guarded by nothing but the length check: on any
    key, locked or not, with or without a PIN, [setup(pin)] with at
    least 4 characters (code points, as [len] counts them) returns
    [True] and replaces the PIN, after which
    [authenticate(pin)] unlocks the key with every slot still in place
    and readable. *)
Theorem setup_needs_no_authentication nc pin :
  4 ≤ Py.len pin →
  ∃ nc1 nc2,
    setup pin nc = (Return true, nc1) ∧
    _authenticated nc1 = _authenticated nc ∧
    authenticate pin nc1 = (Return true, nc2) ∧
    _authenticated nc2 = true ∧
    _slots (_device nc2) = _slots (_device nc) ∧
    ∀ name v, _slots (_device nc) !! name = Some v →
              NexusClaw.retrieve name nc2 = (Return (Py.decode v), nc2).
Proof.
  intros Hlen. unfold setup, on_device, setup_pin.
  rewrite (proj2 (Nat.ltb_ge _ _) Hlen).
  eexists _, _. split; [done|]. split; [done|].
  split; [by apply authenticate_accept|].
  split; [done|]. split; [done|].
  intros name v Hv. rewrite unlocked_retrieve by done. simpl. by rewrite Hv.
Qed.

Lemma setup_needs_no_authentication_witness :
  let locked := (NexusClaw.disconnect Examples.provisioned_key).2 in
  NexusClaw.retrieve "api_key" locked = (Raise PermissionError, locked) ∧
  (authenticate "9999" locked).1 = Return false ∧
  ∃ nc1 nc2,
    setup "9999" locked = (Return true, nc1) ∧
    _authenticated nc1 = _authenticated locked ∧
    authenticate "9999" nc1 = (Return true, nc2) ∧
    _authenticated nc2 = true ∧
    _slots (_device nc2) = _slots (_device locked) ∧
    ∀ name v, _slots (_device locked) !! name = Some v →
              NexusClaw.retrieve name nc2 = (Return (Py.decode v), nc2).
Proof.
  intros locked. split; [reflexivity|]. split; [reflexivity|].
  apply (setup_needs_no_authentication locked "9999"). simpl. lia.
Defined.
End Setup.

(** ** More on the key: after a failed attempt *)

Section AfterFailure.
Import Hardware NexusClawSimulator NexusClaw KeySession.
Implicit Types (nc : NexusClaw.t) (pin name value : string)
  (pins : Datatypes.list string).

(** X8.  A failed [authenticate] never locks a key that is unlocked.
    In particular after the attempt that erased the slots, the key
    still accepts [store] and [retrieve] without a new
    authentication. *)
Theorem failed_attempt_leaves_key_unlocked calls pin nc' :
  let nc := KeySession.run calls NexusClaw.init in
  _authenticated nc = true →
  authenticate pin nc = (Return false, nc') →
  _authenticated nc' = true ∧
  (_max_attempts (_device nc') ≤ _failed_attempts (_device nc') →
     ∀ name value,
       ∃ nc'', NexusClaw.store name value nc' = (Return true, nc'') ∧
               NexusClaw.retrieve name nc'' = (Return value, nc'')).
Proof.
  intros nc Hauth Hfail.
  destruct (run_init_limits calls) as [_ Hslots]. fold nc in Hslots.
  assert (_max_slots (_device nc') = 32) as Hslots'.
  { pose proof (exec_limits (Authenticate pin) nc) as [_ Hl].
    simpl in Hl. rewrite Hfail in Hl. simpl in Hl. congruence. }
  apply authenticate_false_inv in Hfail as (_ & Ha & _ & _ & Hm & Hf & Hs).
  assert (_authenticated nc' = true) as Hauth' by congruence.
  split; [done|]. intros Hmax name value.
  assert (_slots (_device nc') = ∅) as Hempty.
  { rewrite Hs. rewrite Hm, Hf in Hmax.
    by rewrite (proj2 (Nat.leb_le _ _) Hmax). }
  rewrite (unlocked_store _ _ _ Hauth').
  unfold on_device, NexusClawSimulator.store.
  rewrite Hslots', Hempty, map_size_empty. simpl.
  eexists. split; [done|].
  rewrite unlocked_retrieve by done. simpl.
  by rewrite lookup_insert_eq, decode_encode.
Qed.

Lemma failed_attempt_leaves_key_unlocked_witness :
  _authenticated Examples.wiped_key = true ∧
  ∃ nc'', NexusClaw.store "stolen" "x" Examples.wiped_key = (Return true, nc'') ∧
          NexusClaw.retrieve "stolen" nc'' = (Return "x", nc'').
Proof.
  destruct (failed_attempt_leaves_key_unlocked
              ([Connect; Setup "1234"; Authenticate "1234";
                Store "api_key" "sk-test"] ++ attempts ["0000"; "1111"])
              "2222" Examples.wiped_key) as [Hauth Hstore].
  - reflexivity.
  - reflexivity.
  - split; [exact Hauth|]. apply Hstore. vm_compute. lia.
Defined.

Lemma all_rejected_cons d pin pins :
  all_rejected d (pin :: pins) = true ↔
  _pin d ≠ Some pin ∧ all_rejected d pins = true.
Proof.
  unfold all_rejected, is_pin. simpl. rewrite andb_true_iff, negb_true_iff.
  rewrite bool_decide_eq_false. split; intros [H ?]; split; congruence.
Qed.

(** X9.  In a streak of wrong PINs every attempt counts: after [n]
    failed attempts in a row the counter has grown by exactly [n]
    (erasing the slots does not reset it), the slots are erased if the
    counter has reached [max_attempts] and untouched otherwise, and the
    lock of the key object is as before. *)
Theorem failure_streak_counts pins : ∀ nc,
  all_rejected (_device nc) pins = true →
  let nc' := KeySession.run (attempts pins) nc in
  _failed_attempts (_device nc')
    = _failed_attempts (_device nc) + length pins ∧
  _slots (_device nc')
    = (if (0 <? length pins)
          && (_max_attempts (_device nc)
              <=? _failed_attempts (_device nc) + length pins)
       then ∅ else _slots (_device nc)) ∧
  _authenticated nc' = _authenticated nc.
Proof.
  induction pins as [|pin pins IH]; intros nc Hall.
  { simpl. rewrite Nat.add_0_r. done. }
  apply all_rejected_cons in Hall as [Hbad Hall].
  rewrite run_attempts_cons, (authenticate_reject _ _ Hbad). simpl.
  set (nc1 := NexusClaw.mk _ _ _).
  assert (_pin (_device nc1) = _pin (_device nc) ∧
          _max_attempts (_device nc1) = _max_attempts (_device nc) ∧
          _failed_attempts (_device nc1) = _failed_attempts (_device nc) + 1 ∧
          _authenticated nc1 = _authenticated nc ∧
          _slots (_device nc1)
          = (if _max_attempts (_device nc) <=? _failed_attempts (_device nc) + 1
             then ∅ else _slots (_device nc))) as (Hp & Hm & Hf & Ha & Hs).
  { subst nc1. simpl.
    by destruct (_max_attempts (_device nc) <=? _failed_attempts (_device nc) + 1). }
  destruct (IH nc1) as (Hf' & Hs' & Ha').
  { unfold all_rejected, is_pin in *. by rewrite Hp. }
  rewrite Hf', Hs', Ha', Hf, Hm, Hs, Ha.
  repeat split; [lia|].
  replace (_failed_attempts (_device nc) + 1 + length pins)
    with (_failed_attempts (_device nc) + S (length pins)) by lia.
  destruct pins as [|p pins]; simpl.
  - by rewrite Nat.add_1_r.
  - destruct (_max_attempts (_device nc)
              <=? _failed_attempts (_device nc) + S (S (length pins))) eqn:E1;
      [done|].
    apply Nat.leb_gt in E1. by rewrite (proj2 (Nat.leb_gt _ _)) by lia.
Qed.

Lemma failure_streak_counts_witness :
  let nc' := KeySession.run (attempts ["0000"; "1111"; "2222"; "3333"; "4444"])
               Examples.provisioned_key in
  _failed_attempts (_device nc') = 5 ∧
  _slots (_device nc') = ∅ ∧
  _authenticated nc' = true.
Proof.
  apply (failure_streak_counts ["0000"; "1111"; "2222"; "3333"; "4444"]
           Examples.provisioned_key).
  reflexivity.
Defined.

(** X10.  [disconnect] locks the key and clears the connection flag,
    and keeps the PIN, the slots and the failed-attempt counter.  The
    connection flag is checked by nothing: [authenticate] with the PIN
    unlocks the disconnected key and the slots are readable as
    before. *)
Theorem disconnect_locks_and_keeps_contents nc :
  ∃ nc1,
    NexusClaw.disconnect nc = (Return tt, nc1) ∧
    _authenticated nc1 = false ∧
    _connected (_device nc1) = false ∧
    _slots (_device nc1) = _slots (_device nc) ∧
    _pin (_device nc1) = _pin (_device nc) ∧
    _failed_attempts (_device nc1) = _failed_attempts (_device nc) ∧
    ∀ pin, _pin (_device nc) = Some pin →
      ∃ nc2, authenticate pin nc1 = (Return true, nc2) ∧
             _connected (_device nc2) = false ∧
             _slots (_device nc2) = _slots (_device nc) ∧
             ∀ name v, _slots (_device nc) !! name = Some v →
                       NexusClaw.retrieve name nc2 = (Return (Py.decode v), nc2).
Proof.
  eexists. split; [reflexivity|]. simpl. repeat split.
  intros pin Hp. eexists. split; [by apply authenticate_accept|].
  simpl. repeat split.
  intros name v Hv. rewrite unlocked_retrieve by done. simpl. by rewrite Hv.
Qed.

Lemma disconnect_locks_and_keeps_contents_witness :
  ∃ nc1,
    NexusClaw.disconnect Examples.provisioned_key = (Return tt, nc1) ∧
    NexusClaw.retrieve "api_key" nc1 = (Raise PermissionError, nc1) ∧
    ∃ nc2, authenticate "1234" nc1 = (Return true, nc2) ∧
           NexusClaw.retrieve "api_key" nc2 = (Return "sk-test", nc2).
Proof.
  destruct (disconnect_locks_and_keeps_contents Examples.provisioned_key)
    as (nc1 & Hd & _ & _ & _ & _ & _ & Hre).
  exists nc1. split; [exact Hd|].
  injection Hd as <-. split; [reflexivity|].
  destruct (Hre "1234" eq_refl) as (nc2 & Ha & _ & _ & Hget).
  exists nc2. split; [exact Ha|].
  apply (Hget "api_key" (Py.encode "sk-test")). reflexivity.
Defined.
End AfterFailure.

(** ** More on the manager: the audit trail and the session table *)

Section Trail.
Import CrewAI AVPCredentialManager ManagerRun.
Implicit Types (m : AVPCredentialManager.t) (ws nm : string) (sid now : nat).

Lemma filter_session_entry (b : bool) now ws m :
  filter (λ e, is_session_created e = b) (session_entry now ws m)
  = if b then session_entry now ws m else [].
Proof. unfold session_entry. by destruct (_sessions m !! ws), b. Qed.

Lemma filter_op_entry (b : bool) now c (returned : bool) :
  filter (λ e, is_session_created e = b)
    (if returned then option_list (op_entry now c) else [])
  = if b then [] else (if returned then option_list (op_entry now c) else []).
Proof. by destruct returned, c, b. Qed.

Lemma length_trail known calls : ∀ returned,
  length (trail known calls returned) ≤ 2 * length calls.
Proof.
  revert known. induction calls as [|[now c] calls IH];
    intros known [|b returned]; simpl; try lia.
  rewrite !length_app. specialize (IH ({[call_workspace c]} ∪ known) returned).
  assert (length (if b then option_list (op_entry now c) else []) ≤ 1)
    by (destruct b, c; simpl; lia).
  destruct (decide (call_workspace c ∈ known)); simpl; lia.
Qed.

Lemma trail_of_silent_calls known calls : ∀ returned,
  Forall (λ tc, is_credential_op tc.2 = false) calls →
  Forall (λ e, is_session_created e = true) (trail known calls returned).
Proof.
  revert known. induction calls as [|[now c] calls IH];
    intros known [|b returned] Hc; simpl; try constructor.
  apply Forall_cons in Hc as [Hop Hc].
  apply Forall_app. split.
  - destruct (decide (call_workspace c ∈ known)); by repeat constructor.
  - apply Forall_app. split; [|by apply IH].
    destruct b; [|constructor]. by destruct c.
Qed.

(** X11.  Over any run of manager calls, [list_credentials] and the
    scripts' clean-up deletes included, the audit log only grows at its
    end, by at most two entries per call; a run of listings and clean-up
    deletes alone appends nothing but [session_created] entries, so
    listing and deleting leave no entry of their own. *)
Theorem audit_trail_of_any_run calls m :
  ∃ new,
    get_audit_log (ManagerRun.run calls m).2 = get_audit_log m ++ new ∧
    length new ≤ 2 * length calls ∧
    (Forall (λ tc, is_credential_op tc.2 = false) calls →
       Forall (λ e, is_session_created e = true) new).
Proof.
  exists (trail (dom (_sessions m)) calls (backend_run calls m)).
  split; [apply run_trail|]. split; [apply length_trail|].
  apply trail_of_silent_calls.
Qed.

Lemma audit_trail_of_any_run_witness :
  ∃ new,
    get_audit_log
      (ManagerRun.run [(7, ListCredentials "researcher");
                       (8, ListCredentials "analyst");
                       (9, Cleanup "researcher" "anthropic_api_key")]
         Examples.research_vault).2
      = get_audit_log Examples.research_vault ++ new ∧
    length new ≤ 2 * 3 ∧
    Forall (λ e, is_session_created e = true) new.
Proof.
  destruct (audit_trail_of_any_run
              [(7, ListCredentials "researcher");
               (8, ListCredentials "analyst");
               (9, Cleanup "researcher" "anthropic_api_key")]
              Examples.research_vault) as (new & Hlog & Hlen & Hsilent).
  exists new. split; [exact Hlog|]. split; [exact Hlen|].
  apply Hsilent. repeat constructor.
Defined.

Lemma exec_keeps_session now c m ws sid :
  _sessions m !! ws = Some sid →
  _sessions (exec now c m).2 !! ws = Some sid.
Proof.
  intros Hs. destruct (exec_step now c m) as (_ & -> & _).
  destruct (_sessions m !! call_workspace c) eqn:E; [done|].
  rewrite lookup_insert_ne; [done|]. intros <-. congruence.
Qed.

(** X12.  The manager opens a session for a workspace once: after any
    further calls the cached identifier is still the same, and
    [_get_session] returns it unchanged, at any later time, without
    touching the manager. *)
Theorem cached_session_is_never_replaced calls : ∀ m ws sid,
  _sessions m !! ws = Some sid →
  _sessions (ManagerRun.run calls m).2 !! ws = Some sid ∧
  (∀ now, (_get_session now ws (ManagerRun.run calls m).2)
          = (Return sid, (ManagerRun.run calls m).2)).
Proof.
  induction calls as [|[now c] calls IH]; intros m ws sid Hs.
  { split; [done|]. intros now. by apply get_session_cached. }
  simpl. pose proof (exec_keeps_session now c m ws sid Hs) as H1.
  destruct (exec now c m) as [ok m1]. simpl in H1.
  specialize (IH m1 ws sid H1).
  by destruct (ManagerRun.run calls m1) as [oks m2].
Qed.

Lemma cached_session_is_never_replaced_witness :
  ∃ sid,
    _sessions Examples.research_vault !! "researcher" = Some sid ∧
    _sessions (ManagerRun.run ((4000, Get "researcher" "anthropic_api_key")
                                 :: Examples.audit_demo_calls)
                 Examples.research_vault).2 !! "researcher" = Some sid.
Proof.
  exists 0. split; [reflexivity|].
  apply (cached_session_is_never_replaced
           ((4000, Get "researcher" "anthropic_api_key")
              :: Examples.audit_demo_calls)
           Examples.research_vault "researcher" 0).
  reflexivity.
Defined.

Lemma exec_sessions_logged now c m :
  sessions_logged (exec now c m).2 =
    sessions_logged m ++
    match _sessions m !! call_workspace c with
    | Some _ => []
    | None => [call_workspace c]
    end.
Proof.
  unfold sessions_logged. destruct (exec_step now c m) as (-> & _ & _).
  rewrite !filter_app, filter_session_entry, filter_op_entry, app_nil_r.
  rewrite fmap_app. unfold session_entry.
  by destruct (_sessions m !! call_workspace c).
Qed.

(** X13.  In every state the manager reaches from construction, the
    log holds exactly one [session_created] entry for each workspace
    with a cached session, and none for any other workspace. *)
Theorem one_session_entry_per_workspace vault calls :
  let m := (ManagerRun.run calls (init (AVP.open vault))).2 in
  NoDup (sessions_logged m) ∧
  ∀ ws, ws ∈ sessions_logged m ↔ is_Some (_sessions m !! ws).
Proof.
  assert (∀ m0,
    (NoDup (sessions_logged m0) ∧
     ∀ ws, ws ∈ sessions_logged m0 ↔ is_Some (_sessions m0 !! ws)) →
    NoDup (sessions_logged (ManagerRun.run calls m0).2) ∧
    ∀ ws, ws ∈ sessions_logged (ManagerRun.run calls m0).2
          ↔ is_Some (_sessions (ManagerRun.run calls m0).2 !! ws)) as Hrun.
  { induction calls as [|[now c] calls IH]; intros m0 Hm0; [done|].
    simpl.
    pose proof (exec_sessions_logged now c m0) as Hl.
    destruct (exec_step now c m0) as (_ & Hs & _).
    destruct (exec now c m0) as [ok m1]. simpl in Hl, Hs.
    assert (NoDup (sessions_logged m1) ∧
            ∀ ws, ws ∈ sessions_logged m1 ↔ is_Some (_sessions m1 !! ws)) as H1.
    { destruct Hm0 as [Hnd Hiff]. rewrite Hl, Hs.
      destruct (_sessions m0 !! call_workspace c) eqn:E.
      - by rewrite app_nil_r.
      - split.
        + apply NoDup_app. repeat split; [done| |apply NoDup_singleton].
          intros x Hx ->%list_elem_of_singleton.
          apply Hiff in Hx. rewrite E in Hx. by destruct Hx.
        + intros ws. rewrite elem_of_app, list_elem_of_singleton, Hiff.
          destruct (decide (ws = call_workspace c)) as [->|Hne].
          * rewrite lookup_insert_eq. split; [eauto|]. by right.
          * rewrite lookup_insert_ne by done. split; [by intros [?|?]|by left]. }
    specialize (IH m1 H1). by destruct (ManagerRun.run calls m1). }
  apply Hrun. split; [apply NoDup_nil_2|].
  intros ws. unfold sessions_logged. simpl. rewrite lookup_empty.
  split; [by intros ?%elem_of_nil|by intros [? [=]]].
Qed.
End Trail.

(** ** More on the manager: [get_llm] *)

Section LLM.
Import CrewAI AVPCredentialManager ManagerRun ManagerLLM.
Implicit Types (m : AVPCredentialManager.t) (ws nm provider : string)
  (now : nat).

(** [get] on a workspace whose session is cached writes at most its own
    entry, and has written it whenever it returns. *)
Lemma get_with_session now ws nm m sid :
  _sessions m !! ws = Some sid →
  ∃ es,
    _audit_log (get now ws nm m).2 = _audit_log m ++ es ∧
    (es = [] ∨ es = [mkAuditEntry now ws "retrieve" (Some nm)]) ∧
    (Py.is_return (get now ws nm m).1 = true → es ≠ []).
Proof.
  intros Hs. destruct (exec_step now (Get ws nm) m) as (Hlog & _ & Hok).
  destruct (backend_returns now (Get ws nm) m) eqn:Hb;
    simpl in Hlog, Hok; unfold session_entry in Hlog; rewrite Hs in Hlog;
    destruct (get now ws nm m) as [r m'] eqn:Hget; simpl in *.
  - eexists. split; [exact Hlog|]. split; [by right|done].
  - exists []. split; [exact Hlog|]. split; [by left|].
    intros Hr. by apply Hok in Hr.
Qed.

Lemma list_credentials_step now ws m :
  _audit_log (list_credentials now ws m).2
    = _audit_log m ++ session_entry now ws m ∧
  is_Some (_sessions (list_credentials now ws m).2 !! ws).
Proof.
  destruct (exec_step now (ListCredentials ws) m) as (Hlog & Hses & _).
  destruct (backend_returns now (ListCredentials ws) m);
    simpl in Hlog, Hses;
    destruct (list_credentials now ws m) as [r m1] eqn:Hl; simpl in *.
  all: split; [by rewrite Hlog, app_nil_r|].
  all: rewrite Hses; destruct (_sessions m !! ws) eqn:E; [by rewrite E|].
  all: by rewrite lookup_insert_eq.
Qed.

(** One branch of [get_llm]: the import, the credential, the
    constructor. *)
Lemma get_llm_branch {LLM} (imported : result unit)
    (constructor : string → result LLM) now ws nm m sid :
  _sessions m !! ws = Some sid →
  ∃ es,
    _audit_log
      ((Py.lift imported;; api_key ← get now ws nm;
        Py.lift (constructor api_key)) m).2
      = _audit_log m ++ es ∧
    (es = [] ∨ es = [mkAuditEntry now ws "retrieve" (Some nm)]) ∧
    (Py.is_return
       ((Py.lift imported;; api_key ← get now ws nm;
         Py.lift (constructor api_key)) m).1 = true → es ≠ []).
Proof.
  intros Hs. destruct (get_with_session now ws nm m sid Hs)
    as (es & Hlog & Hes & Hret).
  unfold_py. destruct imported as [[]|e]; simpl.
  2:{ exists []. rewrite app_nil_r. split; [done|]. split; [by left|done]. }
  destruct (get now ws nm m) as [[key|e] m'] eqn:Hget; simpl in *.
  - exists es. split; [by destruct (constructor key)|].
    split; [done|]. intros _. by apply Hret.
  - exists es. by repeat split.
Qed.

(** X14.  Whatever the two LangChain packages do on import and on
    construction, [get_llm] appends to the audit log the session entry,
    if it opens the session, and then at most one [retrieve] entry, for
    [anthropic_api_key] or for [openai_api_key]; a call that returns a
    model has written that entry, and a call that raises may have
    written it as well (the credential is read and logged before it is
    decoded and before the model is constructed).  With provider "auto"
    the call behaves as with "anthropic" when [anthropic_api_key] is
    listed, as with "openai" when only [openai_api_key] is, and raises
    [ValueError] when neither is; any provider name other than "auto",
    "anthropic" and "openai" gives [ValueError] once the listing has
    returned. *)
Theorem get_llm_choice_and_trail {LLM} (env : LangChain LLM)
    now ws provider m :
  (∃ es,
     get_audit_log (get_llm env now ws provider m).2
       = get_audit_log m ++ session_entry now ws m ++ es ∧
     (es = [] ∨
      es = [mkAuditEntry now ws "retrieve" (Some "anthropic_api_key")] ∨
      es = [mkAuditEntry now ws "retrieve" (Some "openai_api_key")]) ∧
     (Py.is_return (get_llm env now ws provider m).1 = true → es ≠ [])) ∧
  ∀ available,
    (list_credentials now ws m).1 = Return available →
    ("anthropic_api_key" ∈ available →
       get_llm env now ws "auto" m = get_llm env now ws "anthropic" m) ∧
    ("anthropic_api_key" ∉ available → "openai_api_key" ∈ available →
       get_llm env now ws "auto" m = get_llm env now ws "openai" m) ∧
    ("anthropic_api_key" ∉ available → "openai_api_key" ∉ available →
       get_llm env now ws "auto" m
       = (Raise ValueError, (list_credentials now ws m).2)) ∧
    (provider ≠ "auto" → provider ≠ "anthropic" → provider ≠ "openai" →
       get_llm env now ws provider m
       = (Raise ValueError, (list_credentials now ws m).2)).
Proof.
  destruct (list_credentials_step now ws m) as (Hlog1 & [sid Hsid]).
  pose proof (get_llm_branch (import_anthropic env)
                (λ key, ChatAnthropic env "claude-3-haiku-20240307" key 500)
                now ws "anthropic_api_key" _ sid Hsid) as Ha.
  pose proof (get_llm_branch (import_openai env)
                (λ key, ChatOpenAI env "gpt-3.5-turbo" key 500)
                now ws "openai_api_key" _ sid Hsid) as Ho.
  unfold get_llm, get_audit_log.
  match type of Ha with
  | context [ (?f _).2 ] => set (anthropic := f) in *; clearbody anthropic
  end.
  match type of Ho with
  | context [ (?f _).2 ] => set (openai := f) in *; clearbody openai
  end.
  unfold_py.
  destruct (list_credentials now ws m) as [[available|e] m1] eqn:Hl;
    simpl in *.
  2:{ split; [|intros ? [=]]. exists []. rewrite app_nil_r.
      split; [done|]. split; [by left|done]. }
  split.
  - destruct Ha as (ea & Hla & Hea & Hra), Ho as (eo & Hlo & Heo & Hro).
    repeat case_bool_decide; simpl;
      first
        [ exists ea; rewrite Hla, Hlog1, <- app_assoc;
          split; [done|]; split; [destruct Hea; auto|exact Hra]
        | exists eo; rewrite Hlo, Hlog1, <- app_assoc;
          split; [done|]; split; [destruct Heo; auto|exact Hro]
        | exists []; rewrite Hlog1, app_nil_r;
          split; [done|]; split; [by left|done] ].
  - intros ? [= <-]. repeat split.
    + intros Hin. by rewrite (bool_decide_eq_true_2 _ Hin).
    + intros Hna Hin.
      by rewrite (bool_decide_eq_false_2 _ Hna), (bool_decide_eq_true_2 _ Hin).
    + intros Hna Hno.
      by rewrite (bool_decide_eq_false_2 _ Hna), (bool_decide_eq_false_2 _ Hno).
    + intros H1 H2 H3. by rewrite !bool_decide_eq_false_2 by done.
Qed.

Lemma get_llm_choice_and_trail_witness :
  get_llm installed 5 "researcher" "auto" Examples.research_vault
    = get_llm installed 5 "researcher" "anthropic" Examples.research_vault ∧
  (get_llm installed 5 "researcher" "auto" Examples.research_vault).1
    = Return (Anthropic "claude-3-haiku-20240307" "sk-ant-test" 500) ∧
  (get_llm installed 5 "researcher" "cohere" Examples.research_vault).1
    = Raise ValueError ∧
  (get_llm refusing 5 "researcher" "auto" Examples.research_vault).1
    = Raise ValueError ∧
  get_audit_log
    (get_llm refusing 5 "researcher" "auto" Examples.research_vault).2
    = get_audit_log Examples.research_vault ++
      [mkAuditEntry 5 "researcher" "retrieve" (Some "anthropic_api_key")].
Proof.
  destruct (proj2 (get_llm_choice_and_trail installed 5 "researcher" "cohere"
                     Examples.research_vault) ["anthropic_api_key"] eq_refl)
    as (Hpick & _ & _ & Hunknown).
  split; [|split; [reflexivity|split; [|split; reflexivity]]].
  - apply Hpick. apply list_elem_of_singleton. reflexivity.
  - rewrite Hunknown by discriminate. reflexivity.
Defined.
End LLM.
